(** * TaskRelay: the client access layer and the role router

    A shallow embedding of [src/config/firebase.js], of the auth listener and
    the render function of [src/navigation/AppNavigator.js] and of
    [handleSubmit] of [src/screens/client/CreateTicketScreen.js].

    The JavaScript functions are [async]: they are written here as programs
    over the operations of the Firebase SDK and of React (a free monad with
    exceptions), and run against a model of the hosted service in which
    any call that reaches the service may be rejected and any read may miss
    a document that is not visible yet.  Console output is not modelled.

    Arguments are strings, as the JSDoc of each function says, and the
    number of retries is a natural number.  A JavaScript string is a Rocq
    [string], one character for one UTF-16 code unit (code units below 256
    only), so that [String.length] is the [.length] of the source. *)

From Stdlib Require Import String Ascii List Bool Arith Lia.
From Stdlib Require Import Sorting.Sorted Sorting.Permutation.
From Stdlib Require Import DecimalString.
Import ListNotations.

Local Open Scope string_scope.
Local Open Scope list_scope.

(* ================================================================== *)
(** ** JavaScript values the code relies on *)

Module Js.

(** Truthiness of a string: [!s] holds exactly for the empty string. *)
Definition truthy (s : string) : bool :=
  match s with
  | EmptyString => false
  | String _ _ => true
  end.

(** [a || b] on strings. *)
Definition or_else (a b : string) : string :=
  if truthy a then a else b.

(** [Array.prototype.includes] on an array of strings. *)
Definition includes (xs : list string) (x : string) : bool :=
  existsb (String.eqb x) xs.

(** [Array.prototype.join]. *)
Fixpoint join (sep : string) (xs : list string) : string :=
  match xs with
  | [] => ""
  | [x] => x
  | x :: rest => x ++ sep ++ join sep rest
  end.

(** White space and line terminators of ECMAScript among the code units
    below 256: TAB, LF, VT, FF, CR, SP and NBSP. *)
Definition is_white_space (c : ascii) : bool :=
  let n := nat_of_ascii c in
  existsb (Nat.eqb n) [9; 10; 11; 12; 13; 32; 160]%nat.

Fixpoint trimStart (s : string) : string :=
  match s with
  | EmptyString => EmptyString
  | String c rest => if is_white_space c then trimStart rest else s
  end.

Fixpoint trimEnd (s : string) : string :=
  match s with
  | EmptyString => EmptyString
  | String c rest =>
      match trimEnd rest with
      | EmptyString => if is_white_space c then EmptyString else String c EmptyString
      | kept => String c kept
      end
  end.

(** [String.prototype.trim]. *)
Definition trim (s : string) : string := trimEnd (trimStart s).

(** The double quote, for the messages that contain one. *)
Definition dquote : string := String (ascii_of_nat 34) EmptyString.

(** A thrown error: the [code] a service error carries, and its [message].
    [new Error(m)] has no code. *)
Record Error := mkError { code : option string; message : string }.

Definition new_Error (m : string) : Error := {| code := None; message := m |}.

End Js.

Import Js.

(* ================================================================== *)
(** ** Data model *)

(** The user object of the auth service. *)
Record Identity := mkIdentity { uid : string; email : string }.

(** [serverTimestamp()] is a sentinel the store replaces by its own time. *)
Inductive FieldValue :=
| serverTimestamp
| timestamp (t : nat).

(** A document of the [users] collection.  The store has no schema: a
    document read back may lack any field. *)
Record UserDoc := mkUserDoc {
  u_email : option string;
  u_name : option string;
  u_role : option string;
  u_createdAt : option FieldValue
}.

(** A document of the [tickets] collection. *)
Record TicketDoc := mkTicketDoc {
  title : string;
  description : string;
  type : string;
  status : string;
  clientId : string;
  clientName : string;
  clientEmail : string;
  createdAt : FieldValue;
  updatedAt : option FieldValue
}.

(** What the snapshot listeners hand to their callback:
    [{ id: doc.id, ...doc.data() }]. *)
Record Ticket := mkTicket { id : string; data : TicketDoc }.

(** The direction of an [orderBy]: ['asc'] or ['desc']. *)
Inductive Direction := asc | desc.

(** The query built by [query(ticketsRef, where('clientId','==',uid)?,
    orderBy(field, direction)?)]: the constraints it was given. *)
Record Query := mkQuery {
  where_clientId : option string;
  orderBy : option (string * Direction)
}.

(** State of [AppNavigator] ([useState]). *)
Record NavState := mkNav {
  user : option Identity;
  userRole : option string;
  error : option string;
  loading : bool
}.

(** State of [CreateTicketScreen] ([useState]). *)
Record FormState := mkForm {
  f_title : string;
  f_description : string;
  f_type : string;
  f_loading : bool
}.

(* ================================================================== *)
(** ** Operations and programs *)

(** The calls the code makes, indexed by what they give back. *)
Inductive op : Type -> Type :=
(* @react-native-firebase/auth *)
| createUserWithEmailAndPassword (email password : string) : op Identity
| signInWithEmailAndPassword (email password : string) : op Identity
| firebaseSignOut : op unit
| authInstance_currentUser : op (option Identity)
(* @react-native-firebase/firestore *)
| setDoc_users (uid : string) (d : UserDoc) : op unit
| getDoc_users (uid : string) : op (option UserDoc)
| add_tickets (d : TicketDoc) : op string
| updateDoc_tickets (ticketId status : string) (updatedAt : FieldValue) : op unit
| getDoc_tickets (ticketId : string) : op (option TicketDoc)
| onSnapshot (q : Query) : op nat
(* timers *)
| setTimeout (ms : nat) : op unit
(* React state of AppNavigator *)
| setUser (u : option Identity) : op unit
| setUserRole (r : option string) : op unit
| setError (e : option string) : op unit
| setLoading (b : bool) : op unit
(* React state of CreateTicketScreen, and Alert.alert *)
| setTitle (s : string) : op unit
| setDescription (s : string) : op unit
| setType (s : string) : op unit
| setFormLoading (b : bool) : op unit
| Alert_alert (heading msg : string) : op unit.

(** The operations that reach the hosted service. *)
Definition is_remote {R} (o : op R) : bool :=
  match o with
  | createUserWithEmailAndPassword _ _ | signInWithEmailAndPassword _ _
  | firebaseSignOut
  | setDoc_users _ _ | getDoc_users _ | add_tickets _
  | updateDoc_tickets _ _ _ | getDoc_tickets _ | onSnapshot _ => true
  | _ => false
  end.

(** Programs: return, throw, or call an operation and go on with its
    outcome (an error when the operation rejects). *)
Inductive prog (A : Type) : Type :=
| Ret (a : A)
| Throw (e : Error)
| Call {R : Type} (o : op R) (k : Error + R -> prog A).

Arguments Ret {A} a.
Arguments Throw {A} e.
Arguments Call {A R} o k.

Fixpoint bind {A B} (p : prog A) (f : A -> prog B) : prog B :=
  match p with
  | Ret a => f a
  | Throw e => Throw e
  | Call o k => Call o (fun r => bind (k r) f)
  end.

(** [try { p } catch (error) { h error }]. *)
Fixpoint try_catch {A} (p : prog A) (h : Error -> prog A) : prog A :=
  match p with
  | Ret a => Ret a
  | Throw e => h e
  | Call o k => Call o (fun r => try_catch (k r) h)
  end.

(** [try { p } finally { f }]: [f] runs on both exits; an error of [p] is
    thrown again after it. *)
Definition try_finally {A} (p : prog A) (f : prog unit) : prog A :=
  bind (try_catch (bind p (fun a => Ret (inr a))) (fun e => Ret (inl e)))
       (fun r => bind f (fun _ =>
          match r with
          | inl e => Throw e
          | inr a => Ret a
          end)).

(** [await o], and a call whose result is used at once. *)
Definition await {R} (o : op R) : prog R :=
  Call o (fun r => match r with inl e => Throw e | inr v => Ret v end).

(** [if (c) throw new Error(m);] *)
Definition throw_if (c : bool) (m : string) : prog unit :=
  if c then Throw (new_Error m) else Ret tt.

Declare Scope prog_scope.
Delimit Scope prog_scope with prog.
Notation "x <- p ;; q" := (bind p (fun x => q))
  (at level 61, p at next level, right associativity) : prog_scope.
Notation "p ;; q" := (bind p (fun _ => q))
  (at level 61, right associativity) : prog_scope.
Local Open Scope prog_scope.

(* ================================================================== *)
(** ** src/config/firebase.js *)

Definition code_is (e : Error) (c : string) : bool :=
  match code e with
  | Some c' => String.eqb c' c
  | None => false
  end.

(** A field that may be missing, read where a string is expected:
    [undefined] is as falsy as the empty string. *)
Definition field (f : option string) : string :=
  match f with
  | Some s => s
  | None => ""
  end.

Definition signUp (email password name role : string) : prog Identity :=
  try_catch
    (throw_if (negb (truthy email) || negb (truthy password)
               || negb (truthy name) || negb (truthy role))
       "All fields are required";;
     throw_if (Nat.ltb (String.length password) 6)
       "Password must be at least 6 characters";;
     throw_if (negb (includes ["client"; "admin"] role))
       ("Role must be either " ++ dquote ++ "client" ++ dquote
        ++ " or " ++ dquote ++ "admin" ++ dquote);;
     user <- await (createUserWithEmailAndPassword email password);;
     await (setDoc_users (uid user)
              {| u_email := Some email; u_name := Some name;
                 u_role := Some role; u_createdAt := Some serverTimestamp |});;
     verifyDoc <- await (getDoc_users (uid user));;
     match verifyDoc with
     | None => Throw (new_Error "Failed to create user profile")
     | Some _ => Ret user
     end)
    (fun error =>
       Throw (new_Error (or_else (message error) "Failed to create account"))).

(** The [catch] block of [signIn]. *)
Definition signIn_catch {A} (error : Error) : prog A :=
  if code_is error "auth/user-not-found" then
    Throw (new_Error "No account found with this email")
  else if code_is error "auth/wrong-password" then
    Throw (new_Error "Incorrect password")
  else if code_is error "auth/invalid-email" then
    Throw (new_Error "Invalid email address")
  else
    Throw (new_Error (or_else (message error) "Failed to sign in")).

Definition signIn (email password : string) : prog Identity :=
  try_catch
    (throw_if (negb (truthy email) || negb (truthy password))
       "Email and password are required";;
     await (signInWithEmailAndPassword email password))
    signIn_catch.

Definition signOut : prog unit :=
  try_catch (await firebaseSignOut)
    (fun _ => Throw (new_Error "Failed to sign out")).

Definition getCurrentUser : prog (option Identity) := await authInstance_currentUser.

(** [getUserRole(userId, retries = 3)].  The retry is [return
    getUserRole(userId, retries - 1)] inside the [try]: the promise is
    returned, not awaited, so the [try] block ends with it ([inr]) and the
    caller's promise follows it afterwards, outside the [catch]. *)
Fixpoint getUserRole (userId : string) (retries : nat) : prog string :=
  r <- try_catch
         (throw_if (negb (truthy userId)) "User ID is required";;
          userDoc <- await (getDoc_users userId);;
          match userDoc with
          | None =>
              match retries with
              | S retries' =>
                  await (setTimeout 500);;
                  Ret (inr (getUserRole userId retries'))
              | O => Throw (new_Error "User profile not found")
              end
          | Some userData =>
              throw_if (negb (truthy (field (u_role userData))))
                "User role not found";;
              Ret (inl (field (u_role userData)))
          end)
         (fun error =>
            Throw (new_Error (or_else (message error) "Failed to get user role")));;
  match r with
  | inl role => Ret role
  | inr promise => promise
  end.

Definition default_retries : nat := 3.

Definition createTicket (title description type : string) : prog string :=
  try_catch
    (cu <- await authInstance_currentUser;;
     match cu with
     | None => Throw (new_Error "You must be logged in to create a ticket")
     | Some currentUser =>
         throw_if (negb (truthy title) || negb (truthy description)
                   || negb (truthy type))
           "All fields are required";;
         throw_if (negb (includes ["bug"; "feature"] type))
           ("Type must be either " ++ dquote ++ "bug" ++ dquote
            ++ " or " ++ dquote ++ "feature" ++ dquote);;
         clientName <-
           try_catch
             (userDoc <- await (getDoc_users (uid currentUser));;
              match userDoc with
              | Some userData =>
                  Ret (or_else (field (u_name userData)) (email currentUser))
              | None => Ret (email currentUser)
              end)
             (fun _ => Ret (email currentUser));;
         await (add_tickets
                  {| title := trim title;
                     description := trim description;
                     type := type;
                     status := "open";
                     clientId := uid currentUser;
                     clientName := clientName;
                     clientEmail := email currentUser;
                     createdAt := serverTimestamp;
                     updatedAt := None |})
     end)
    (fun error =>
       Throw (new_Error (or_else (message error) "Failed to create ticket"))).

(** [getMyTickets(callback, onError)] is not [async]: it throws at once when
    nobody is logged in.  On success the snapshot listener is registered
    and the unsubscribe handle returned. *)
Definition getMyTickets (onError : option (Error -> prog unit)) : prog nat :=
  cu <- await authInstance_currentUser;;
  match cu with
  | None =>
      let error := new_Error "You must be logged in to view tickets" in
      match onError with
      | Some handler => handler error
      | None => Ret tt
      end;;
      Throw error
  | Some currentUser =>
      await (onSnapshot {| where_clientId := Some (uid currentUser);
                           orderBy := Some ("createdAt", desc) |})
  end.

Definition getAllTickets : prog nat :=
  await (onSnapshot {| where_clientId := None;
                       orderBy := Some ("createdAt", desc) |}).

(** The first listener of both: [snapshot.docs.map(doc => ({id: doc.id,
    ...doc.data()}))], the argument of [callback]. *)
Definition tickets_of_snapshot (docs : list (string * TicketDoc)) : list Ticket :=
  map (fun doc => {| id := fst doc; data := snd doc |}) docs.

Definition validStatuses : list string :=
  ["open"; "in-progress"; "resolved"; "closed"].

Definition updateTicketStatus (ticketId status : string) : prog unit :=
  try_catch
    (throw_if (negb (truthy ticketId)) "Ticket ID is required";;
     throw_if (negb (includes validStatuses status))
       ("Status must be one of: " ++ join ", " validStatuses);;
     await (updateDoc_tickets ticketId status serverTimestamp))
    (fun error =>
       Throw (new_Error (or_else (message error) "Failed to update ticket status"))).

Definition getTicketById (ticketId : string) : prog Ticket :=
  try_catch
    (throw_if (negb (truthy ticketId)) "Ticket ID is required";;
     ticketDoc <- await (getDoc_tickets ticketId);;
     match ticketDoc with
     | None => Throw (new_Error "Ticket not found")
     | Some d => Ret {| id := ticketId; data := d |}
     end)
    (fun error =>
       Throw (new_Error (or_else (message error) "Failed to get ticket"))).

(* ================================================================== *)
(** ** src/navigation/AppNavigator.js *)

(** The callback given to [onAuthStateChanged]. *)
Definition authListener (authUser : option Identity) : prog unit :=
  try_finally
    (try_catch
       (match authUser with
        | Some au =>
            role <- getUserRole (uid au) default_retries;;
            await (setUserRole (Some role));;
            await (setUser (Some au));;
            await (setError None)
        | None =>
            await (setUser None);;
            await (setUserRole None);;
            await (setError None)
        end)
       (fun err =>
          await (setError (Some (message err)));;
          signOut;;
          await (setUser None);;
          await (setUserRole None)))
    (await (setLoading false)).

Inductive Screen := Auth | ClientApp | DeveloperApp | TicketDetail.

(** What [AppNavigator] returns: [None] for [return null] while loading,
    else the screens inside the stack navigator ([[]] for the final
    [null] of the conditional). *)
Definition AppNavigator (s : NavState) : option (list Screen) :=
  if loading s then None
  else Some
    match user s with
    | None => [Auth]
    | Some _ =>
        match userRole s with
        | Some r =>
            if r =? "client" then [ClientApp]
            else if r =? "admin" then [DeveloperApp; TicketDetail]
            else []
        | None => []
        end
    end.

Definition initialNav : NavState :=
  {| user := None; userRole := None; error := None; loading := true |}.

(* ================================================================== *)
(** ** src/screens/client/CreateTicketScreen.js *)

(** [handleSubmit], with the state of the form it reads. *)
Definition handleSubmit (form : FormState) : prog unit :=
  if negb (truthy (trim (f_title form))) || negb (truthy (trim (f_description form)))
  then await (Alert_alert "Error" "Please fill in all fields")
  else
    await (setFormLoading true);;
    try_finally
      (try_catch
         (createTicket (trim (f_title form)) (trim (f_description form)) (f_type form);;
          await (setTitle "");;
          await (setDescription "");;
          await (setType "bug");;
          await (Alert_alert "Success" "Ticket created successfully!"))
         (fun error => await (Alert_alert "Error" (message error))))
      (await (setFormLoading false)).


Definition initialForm : FormState :=
  {| f_title := ""; f_description := ""; f_type := "bug"; f_loading := false |}.

(* ================================================================== *)
(** ** The hosted service and the application state *)

Module Service.

Record Account := mkAccount {
  a_uid : string;
  a_email : string;
  a_password : string
}.

(** What goes wrong at the next call that reaches the service: nothing, a
    rejection with the given error, or (for a read) a document that is not
    visible yet. *)
Inductive Fault :=
| NoFault
| Rejects (e : Error)
| Stale.

(** An awaited call, as recorded in the log. *)
Inductive event :=
| Called {R : Type} (o : op R).

Record World := mkWorld {
  accounts : list Account;
  session : option Identity;
  users : list (string * UserDoc);
  tickets : list (string * TicketDoc);
  listeners : list Query;
  clock : nat;
  faults : list Fault;
  log : list event;
  nav : NavState;
  form : FormState;
  alerts : list (string * string)
}.

Definition set_accounts (w : World) (v : list Account) : World :=
  mkWorld v (session w) (users w) (tickets w) (listeners w) (clock w)
          (faults w) (log w) (nav w) (form w) (alerts w).
Definition set_session (w : World) (v : option Identity) : World :=
  mkWorld (accounts w) v (users w) (tickets w) (listeners w) (clock w)
          (faults w) (log w) (nav w) (form w) (alerts w).
Definition set_users (w : World) (v : list (string * UserDoc)) : World :=
  mkWorld (accounts w) (session w) v (tickets w) (listeners w) (clock w)
          (faults w) (log w) (nav w) (form w) (alerts w).
Definition set_tickets (w : World) (v : list (string * TicketDoc)) : World :=
  mkWorld (accounts w) (session w) (users w) v (listeners w) (clock w)
          (faults w) (log w) (nav w) (form w) (alerts w).
Definition set_listeners (w : World) (v : list Query) : World :=
  mkWorld (accounts w) (session w) (users w) (tickets w) v (clock w)
          (faults w) (log w) (nav w) (form w) (alerts w).
Definition set_clock (w : World) (v : nat) : World :=
  mkWorld (accounts w) (session w) (users w) (tickets w) (listeners w) v
          (faults w) (log w) (nav w) (form w) (alerts w).
Definition set_faults (w : World) (v : list Fault) : World :=
  mkWorld (accounts w) (session w) (users w) (tickets w) (listeners w) (clock w)
          v (log w) (nav w) (form w) (alerts w).
Definition set_log (w : World) (v : list event) : World :=
  mkWorld (accounts w) (session w) (users w) (tickets w) (listeners w) (clock w)
          (faults w) v (nav w) (form w) (alerts w).
Definition set_nav (w : World) (v : NavState) : World :=
  mkWorld (accounts w) (session w) (users w) (tickets w) (listeners w) (clock w)
          (faults w) (log w) v (form w) (alerts w).
Definition set_form (w : World) (v : FormState) : World :=
  mkWorld (accounts w) (session w) (users w) (tickets w) (listeners w) (clock w)
          (faults w) (log w) (nav w) v (alerts w).
Definition set_alerts (w : World) (v : list (string * string)) : World :=
  mkWorld (accounts w) (session w) (users w) (tickets w) (listeners w) (clock w)
          (faults w) (log w) (nav w) (form w) v.

(** *** Documents *)

Fixpoint lookup {V} (k : string) (m : list (string * V)) : option V :=
  match m with
  | [] => None
  | (k', v) :: rest => if k' =? k then Some v else lookup k rest
  end.

(** Write at a key: in place when the key is there, at the end otherwise. *)
Fixpoint put {V} (k : string) (v : V) (m : list (string * V)) : list (string * V) :=
  match m with
  | [] => [(k, v)]
  | (k', v') :: rest =>
      if k' =? k then (k, v) :: rest else (k', v') :: put k v rest
  end.

Definition resolve (now : nat) (v : FieldValue) : FieldValue :=
  match v with
  | serverTimestamp => timestamp now
  | timestamp t => timestamp t
  end.

Definition seconds (v : FieldValue) : nat :=
  match v with
  | timestamp t => t
  | serverTimestamp => 0
  end.

Definition decimal (n : nat) : string := NilEmpty.string_of_uint (Nat.to_uint n).

(** A document as the store keeps it: the sentinels replaced by the time
    of the write. *)
Definition stored_user (now : nat) (d : UserDoc) : UserDoc :=
  {| u_email := u_email d; u_name := u_name d; u_role := u_role d;
     u_createdAt := option_map (resolve now) (u_createdAt d) |}.

Definition stored_ticket (now : nat) (d : TicketDoc) : TicketDoc :=
  {| title := title d; description := description d; type := type d;
     status := status d; clientId := clientId d;
     clientName := clientName d; clientEmail := clientEmail d;
     createdAt := resolve now (createdAt d);
     updatedAt := option_map (resolve now) (updatedAt d) |}.

(** [updateDoc(ref, {status, updatedAt})]: the two fields replaced, the
    others kept. *)
Definition updated_ticket (now : nat) (s : string) (t : FieldValue) (d : TicketDoc)
  : TicketDoc :=
  {| title := title d; description := description d; type := type d;
     status := s; clientId := clientId d;
     clientName := clientName d; clientEmail := clientEmail d;
     createdAt := createdAt d;
     updatedAt := Some (resolve now t) |}.

Definition ticket_id (n : nat) : string := ("ticket" ++ decimal n)%string.
Definition user_id (n : nat) : string := ("user" ++ decimal n)%string.

(** *** Queries: [where('clientId','==',uid)] and [orderBy(field, direction)] *)

Definition created (d : string * TicketDoc) : nat := seconds (createdAt (snd d)).

(** What the store compares when it orders by a field: a time or a
    string. *)
Inductive Value := time_value (t : nat) | string_value (s : string).

Definition field_value (f : string) (d : TicketDoc) : option Value :=
  if f =? "title" then Some (string_value (title d))
  else if f =? "description" then Some (string_value (description d))
  else if f =? "type" then Some (string_value (type d))
  else if f =? "status" then Some (string_value (status d))
  else if f =? "clientId" then Some (string_value (clientId d))
  else if f =? "clientName" then Some (string_value (clientName d))
  else if f =? "clientEmail" then Some (string_value (clientEmail d))
  else if f =? "createdAt" then Some (time_value (seconds (createdAt d)))
  else if f =? "updatedAt"
       then option_map (fun t => time_value (seconds t)) (updatedAt d)
  else None.

(** The order of the store on values: times before strings, times by the
    clock, strings by their characters. *)
Definition value_ltb (a b : Value) : bool :=
  match a, b with
  | time_value s, time_value t => Nat.ltb s t
  | time_value _, string_value _ => true
  | string_value _, time_value _ => false
  | string_value s, string_value t => String.ltb s t
  end.

Definition value_eqb (a b : Value) : bool :=
  match a, b with
  | time_value s, time_value t => Nat.eqb s t
  | string_value s, string_value t => s =? t
  | _, _ => false
  end.

(** Ascending by field [f], and by document id where the field agrees. *)
Definition doc_ltb (f : string) (a b : string * TicketDoc) : bool :=
  match field_value f (snd a), field_value f (snd b) with
  | Some va, Some vb =>
      value_ltb va vb || (value_eqb va vb && String.ltb (fst a) (fst b))
  | _, _ => false
  end.

(** [a] comes before [b] in the results of a query ordered by [o]; with
    no [orderBy] the results come by document id. *)
Definition precedes (o : option (string * Direction)) (a b : string * TicketDoc)
  : bool :=
  match o with
  | None => String.ltb (fst a) (fst b)
  | Some (f, asc) => doc_ltb f a b
  | Some (f, desc) => doc_ltb f b a
  end.

(** A document that lacks the field of the [orderBy] is not in the
    results. *)
Definition sortable (o : option (string * Direction)) (d : string * TicketDoc)
  : bool :=
  match o with
  | None => true
  | Some (f, _) =>
      match field_value f (snd d) with
      | Some _ => true
      | None => false
      end
  end.

Fixpoint insert_sorted (o : option (string * Direction)) (d : string * TicketDoc)
    (l : list (string * TicketDoc)) : list (string * TicketDoc) :=
  match l with
  | [] => [d]
  | x :: rest =>
      if precedes o d x then d :: x :: rest
      else x :: insert_sorted o d rest
  end.

Definition order_docs (o : option (string * Direction))
    (l : list (string * TicketDoc)) : list (string * TicketDoc) :=
  fold_right (insert_sorted o) [] (filter (sortable o) l).

Definition matches (q : Query) (d : string * TicketDoc) : bool :=
  match where_clientId q with
  | Some u => clientId (snd d) =? u
  | None => true
  end.

(** The documents of a snapshot of query [q] over the collection: those
    that match its [where], in the order of its [orderBy]. *)
Definition snapshot_docs (q : Query) (coll : list (string * TicketDoc))
  : list (string * TicketDoc) :=
  order_docs (orderBy q) (filter (matches q) coll).

(** *** Accounts *)

Fixpoint has_at (s : string) : bool :=
  match s with
  | EmptyString => false
  | String c rest => (nat_of_ascii c =? 64)%nat || has_at rest
  end.

Fixpoint find_account (e : string) (l : list Account) : option Account :=
  match l with
  | [] => None
  | a :: rest => if a_email a =? e then Some a else find_account e rest
  end.

Definition auth_error (c m : string) : Error := {| code := Some c; message := m |}.

(** *** One call *)

Definition next_fault (w : World) : Fault * World :=
  match faults w with
  | [] => (NoFault, w)
  | f :: rest => (f, set_faults w rest)
  end.

Definition record_call {R} (o : op R) (w : World) : World :=
  set_log w (log w ++ [Called o]).

(** A call that reaches the service: logged, then rejected when the next
    fault says so, else served by [serve] ([stale] tells a read that the
    document is not visible). *)
Definition remote {R} (o : op R)
    (serve : bool -> World -> (Error + R) * World) (w : World)
  : (Error + R) * World :=
  let (f, w1) := next_fault (record_call o w) in
  match f with
  | Rejects e => (inl e, w1)
  | Stale => serve true w1
  | NoFault => serve false w1
  end.

Definition perform {R} (o : op R) : World -> (Error + R) * World :=
  match o in op R return World -> (Error + R) * World with
  | createUserWithEmailAndPassword e p => remote (createUserWithEmailAndPassword e p)
      (fun _ w =>
         if negb (has_at e) then
           (inl (auth_error "auth/invalid-email" "The email address is badly formatted."), w)
         else if Nat.ltb (String.length p) 6 then
           (inl (auth_error "auth/weak-password" "The given password is invalid."), w)
         else
           match find_account e (accounts w) with
           | Some _ =>
               (inl (auth_error "auth/email-already-in-use"
                       "The email address is already in use by another account."), w)
           | None =>
               let u := {| uid := user_id (length (accounts w)); email := e |} in
               (inr u,
                set_session
                  (set_accounts w (accounts w ++ [mkAccount (uid u) e p]))
                  (Some u))
           end)
  | signInWithEmailAndPassword e p => remote (signInWithEmailAndPassword e p)
      (fun _ w =>
         if negb (has_at e) then
           (inl (auth_error "auth/invalid-email" "The email address is badly formatted."), w)
         else
           match find_account e (accounts w) with
           | None =>
               (inl (auth_error "auth/user-not-found"
                       "There is no user record corresponding to this identifier."), w)
           | Some a =>
               if a_password a =? p then
                 let u := {| uid := a_uid a; email := a_email a |} in
                 (inr u, set_session w (Some u))
               else
                 (inl (auth_error "auth/wrong-password" "The password is invalid."), w)
           end)
  | firebaseSignOut => remote firebaseSignOut
      (fun _ w => (inr tt, set_session w None))
  | authInstance_currentUser => fun w => (inr (session w), w)
  | setDoc_users u d => remote (setDoc_users u d)
      (fun _ w =>
         (inr tt, set_clock (set_users w (put u (stored_user (clock w) d) (users w)))
                            (S (clock w))))
  | getDoc_users u => remote (getDoc_users u)
      (fun stale w => (inr (if stale then None else lookup u (users w)), w))
  | add_tickets d => remote (add_tickets d)
      (fun _ w =>
         let i := ticket_id (length (tickets w)) in
         (inr i, set_clock (set_tickets w (tickets w ++ [(i, stored_ticket (clock w) d)]))
                           (S (clock w))))
  | updateDoc_tickets i s t => remote (updateDoc_tickets i s t)
      (fun _ w =>
         match lookup i (tickets w) with
         | None =>
             (inl {| code := Some "firestore/not-found";
                     message := "No document to update" |}, w)
         | Some d =>
             (inr tt, set_clock (set_tickets w (put i (updated_ticket (clock w) s t d) (tickets w)))
                                (S (clock w)))
         end)
  | getDoc_tickets i => remote (getDoc_tickets i)
      (fun stale w => (inr (if stale then None else lookup i (tickets w)), w))
  | onSnapshot q => fun w =>
      let w1 := record_call (onSnapshot q) w in
      (inr (length (listeners w1)), set_listeners w1 (listeners w1 ++ [q]))
  | setTimeout ms => fun w =>
      let w1 := record_call (setTimeout ms) w in
      (inr tt, set_clock w1 (clock w1 + ms))
  | setUser u => fun w =>
      (inr tt, set_nav w (mkNav u (userRole (nav w)) (error (nav w)) (loading (nav w))))
  | setUserRole r => fun w =>
      (inr tt, set_nav w (mkNav (user (nav w)) r (error (nav w)) (loading (nav w))))
  | setError e => fun w =>
      (inr tt, set_nav w (mkNav (user (nav w)) (userRole (nav w)) e (loading (nav w))))
  | setLoading b => fun w =>
      (inr tt, set_nav w (mkNav (user (nav w)) (userRole (nav w)) (error (nav w)) b))
  | setTitle s => fun w =>
      (inr tt, set_form w (mkForm s (f_description (form w)) (f_type (form w)) (f_loading (form w))))
  | setDescription s => fun w =>
      (inr tt, set_form w (mkForm (f_title (form w)) s (f_type (form w)) (f_loading (form w))))
  | setType s => fun w =>
      (inr tt, set_form w (mkForm (f_title (form w)) (f_description (form w)) s (f_loading (form w))))
  | setFormLoading b => fun w =>
      (inr tt, set_form w (mkForm (f_title (form w)) (f_description (form w)) (f_type (form w)) b))
  | Alert_alert h m => fun w =>
      (inr tt, set_alerts w (alerts w ++ [(h, m)]))
  end.

(** Running a program to its end. *)
Fixpoint exec {A} (p : prog A) (w : World) : (Error + A) * World :=
  match p with
  | Ret a => (inr a, w)
  | Throw e => (inl e, w)
  | Call o k => let (r, w') := perform o w in exec (k r) w'
  end.

(** The lists a listener registered with query [q] passes to its callback
    when the collection is [coll]. *)
Definition delivered (q : Query) (coll : list (string * TicketDoc)) : list Ticket :=
  tickets_of_snapshot (snapshot_docs q coll).

Definition empty : World :=
  {| accounts := []; session := None; users := []; tickets := [];
     listeners := []; clock := 0; faults := []; log := [];
     nav := initialNav; form := initialForm; alerts := [] |}.

End Service.

Import Service.


(* ================================================================== *)
(** ** Vocabulary of the statements *)

(** The outcome of the next read of a user document. *)
Definition read_user (u : string) (w : World) : Error + option UserDoc :=
  match faults w with
  | Rejects e :: _ => inl e
  | Stale :: _ => inr None
  | _ => inr (lookup u (users w))
  end.

(** The world once a call that reaches the service has been logged and has
    used up the next fault. *)
Definition after_call {R} (o : op R) (w : World) : World :=
  set_faults (record_call o w) (tl (faults w)).

(** [sub] occurs somewhere in [s]. *)
Fixpoint contains (sub s : string) : bool :=
  String.prefix sub s ||
  match s with
  | EmptyString => false
  | String _ rest => contains sub rest
  end.

(** The error taxonomy: the message each named error carries. *)
Module Errors.

Definition AllFieldsRequired : string := "All fields are required".
Definition PasswordTooShort : string := "Password must be at least 6 characters".
Definition RoleNotAllowed : string :=
  "Role must be either " ++ dquote ++ "client" ++ dquote
  ++ " or " ++ dquote ++ "admin" ++ dquote.
Definition TypeNotAllowed : string :=
  "Type must be either " ++ dquote ++ "bug" ++ dquote
  ++ " or " ++ dquote ++ "feature" ++ dquote.
Definition TicketIdRequired : string := "Ticket ID is required".

(** The validation errors of [signUp]. *)
Definition ValidationError : list string :=
  [AllFieldsRequired; PasswordTooShort; RoleNotAllowed].

Definition ProfileCreationError : string := "Failed to create user profile".
Definition ProfileNotFound : string := "User profile not found".
Definition RoleMissing : string := "User role not found".
Definition NotAuthenticated : string := "You must be logged in to create a ticket".
Definition InvalidStatus : string :=
  "Status must be one of: open, in-progress, resolved, closed".
Definition InvalidCredentials : string := "Incorrect password".
Definition UserNotFound : string := "No account found with this email".
Definition InvalidEmail : string := "Invalid email address".
Definition SignOutError : string := "Failed to sign out".

End Errors.

(** An input [signUp] must refuse. *)
Definition signUp_refuses (email password name role : string) : Prop :=
  email = "" \/ password = "" \/ name = "" \/ role = ""
  \/ String.length password < 6 \/ ~ In role ["client"; "admin"].

(** The object [createTicket] hands to [add] for the user [u]. *)
Definition new_ticket (title description type : string) (u : Identity)
    (clientName : string) : TicketDoc :=
  {| title := trim title; description := trim description; type := type;
     status := "open"; clientId := uid u; clientName := clientName;
     clientEmail := email u; createdAt := serverTimestamp; updatedAt := None |}.

(** The display name [createTicket] ends up with: the profile's name when
    the read gives one, the email otherwise. *)
Definition clientName_of (u : Identity) (w : World) : string :=
  match read_user (uid u) w with
  | inr (Some userData) => or_else (field (u_name userData)) (email u)
  | _ => email u
  end.

(** What [createTicket] checks of its arguments. *)
Definition createTicket_accepts (title description type : string) : bool :=
  truthy title && truthy description && truthy type
  && includes ["bug"; "feature"] type.

(** A service with one registered client, signed in. *)
Definition alice : Identity := {| uid := "user0"; email := "alice@x.com" |}.

Definition alice_signed_in : World :=
  Eval vm_compute in
    snd (exec (signUp "alice@x.com" "secret1" "Alice" "client") empty).



(** The profile [signUp] writes. *)
Definition profile_of (email name role : string) : UserDoc :=
  {| u_email := Some email; u_name := Some name; u_role := Some role;
     u_createdAt := Some serverTimestamp |}.

(** The [catch] of [signUp]. *)
Definition signUp_rethrown (e : Error) : Error :=
  new_Error (or_else (message e) "Failed to create account").

(** The error of the store when its rules refuse a write. *)
Definition permission_denied : Error :=
  {| code := Some "firestore/permission-denied";
     message := "Missing or insufficient permissions." |}.

Definition bob : Identity := {| uid := "user0"; email := "bob@x.com" |}.

(** A fresh service in which the profile of the next sign-up is written
    but not visible when it is read back. *)
Definition profile_not_visible : World :=
  Eval vm_compute in set_faults empty [NoFault; NoFault; Stale].

(** The world once a timer of [ms] milliseconds has fired. *)
Definition after_delay (ms : nat) (w : World) : World :=
  set_clock (record_call (setTimeout ms) w) (clock w + ms).

(** The calls of a resolution that reads [k + 1] times: every read but the
    last is followed by a wait of 500 milliseconds. *)
Fixpoint retry_trace (userId : string) (k : nat) : list event :=
  match k with
  | O => [Called (getDoc_users userId)]
  | S k' =>
      Called (getDoc_users userId) :: Called (setTimeout 500) :: retry_trace userId k'
  end.

(** The [i]-th fault from now on; none once the list is used up. *)
Definition fault_at (i : nat) (w : World) : Fault := nth i (faults w) NoFault.

(** The read that comes [i] calls from now finds no document of [userId]:
    it is stale, or it is served and the store has none. *)
Definition sees_nothing (userId : string) (w : World) (i : nat) : Prop :=
  fault_at i w = Stale \/ (fault_at i w = NoFault /\ lookup userId (users w) = None).

Definition is_read (ev : event) : bool :=
  match ev with
  | Called o =>
      match o with
      | getDoc_users _ => true
      | _ => false
      end
  end.

Definition is_wait (ms : nat) (ev : event) : bool :=
  match ev with
  | Called o =>
      match o with
      | setTimeout m => Nat.eqb m ms
      | _ => false
      end
  end.

Definition count (f : event -> bool) (l : list event) : nat := length (filter f l).

(** The creation time of a delivered ticket. *)
Definition created_at (t : Ticket) : nat := seconds (createdAt (data t)).

(** [a] may come before [b] in a snapshot: it is not older. *)
Definition newer (a b : string * TicketDoc) : Prop := created b <= created a.

(** Creation time descending. *)
Definition newest_first (l : list Ticket) : Prop :=
  StronglySorted (fun a b => created_at b <= created_at a) l.

(** The query for the tickets of [u] and the query for all tickets, both
    by creation time descending. *)
Definition own_query (u : Identity) : Query :=
  {| where_clientId := Some (uid u); orderBy := Some ("createdAt", desc) |}.
Definition all_query : Query :=
  {| where_clientId := None; orderBy := Some ("createdAt", desc) |}.

(** The document of the collection a delivered ticket stands for: its id
    and its fields. *)
Definition stored (t : Ticket) : string * TicketDoc := (id t, data t).

(** The codes [signIn] tells apart. *)
Definition known_auth_codes : list string :=
  ["auth/user-not-found"; "auth/wrong-password"; "auth/invalid-email"].

(** The next call is not rejected from outside: the service answers by
    its own rules. *)
Definition served (w : World) : Prop := forall e, fault_at 0 w <> Rejects e.

(** Three tickets, as the store may hold them: two of Alice's around one
    of somebody else's. *)
Definition ticket_by (owner : string) (t : nat) : TicketDoc :=
  {| title := "Crash on launch"; description := "App crashes"; type := "bug";
     status := "open"; clientId := owner; clientName := owner;
     clientEmail := owner; createdAt := timestamp t; updatedAt := None |}.

Definition three_tickets : list (string * TicketDoc) :=
  [("ticket0", ticket_by "user0" 3); ("ticket1", ticket_by "user1" 5);
   ("ticket2", ticket_by "user0" 7)].

(* ------------------------------------------------------------------ *)
(** *** The role router *)

(** The navigator shows one of its three sets of screens. *)
Definition routable (s : NavState) : Prop :=
  AppNavigator s = Some [Auth]
  \/ AppNavigator s = Some [ClientApp]
  \/ AppNavigator s = Some [DeveloperApp; TicketDetail].

(** The navigator state with the error recorded. *)
Definition with_error (s : NavState) (m : string) : NavState :=
  mkNav (user s) (userRole s) (Some m) (loading s).

(** A second client, and a profile whose role is neither client nor
    admin (written to the directory by other means than [signUp]). *)
Definition carol : Identity := {| uid := "user7"; email := "carol@x.com" |}.

Definition carol_is_manager : World :=
  Eval vm_compute in
  set_users alice_signed_in
    (users alice_signed_in
     ++ [("user7", {| u_email := Some "carol@x.com"; u_name := Some "Carol";
                      u_role := Some "manager"; u_createdAt := Some (timestamp 5) |})]).

(** Somebody without a profile, and a service in which Alice is routed as
    a client and the network then fails: the next read and the sign-out
    after it are both rejected. *)
Definition dave : Identity := {| uid := "user9"; email := "dave@x.com" |}.

Definition network_error : Error :=
  {| code := Some "auth/network-request-failed"; message := "A network error has occurred." |}.

Definition alice_routed : World :=
  Eval vm_compute in snd (exec (authListener (Some alice)) alice_signed_in).

Definition sign_out_rejected : World :=
  Eval vm_compute in
  set_faults alice_routed [Rejects network_error; Rejects network_error].

(** The application starts with Alice's session restored and the network
    down: nothing is shown yet, and the read and the sign-out are both
    rejected. *)
Definition alice_offline : World :=
  Eval vm_compute in
  set_faults alice_signed_in [Rejects network_error; Rejects network_error].

(* ================================================================== *)
(** ** src/screens/auth/SignupScreen.js *)

(** [handleSignup], with the state of the form it reads. *)
Definition handleSignup (email password name role : string) : prog unit :=
  try_catch
    (signUp email password name role;; Ret tt)
    (fun error => await (Alert_alert "Error" (message error))).

(* ================================================================== *)
(** ** src/screens/admin/AdminHomeScreen.js *)

Definition handleLogout : prog unit :=
  try_catch signOut
    (fun _ => await (Alert_alert "Error" "Failed to logout. Please try again.")).

(* ================================================================== *)
(** ** src/screens/admin/TicketDetailScreen.js *)

(** The status buttons of the screen. *)
Definition statuses : list string := ["open"; "in-progress"; "resolved"; "closed"].

(** [handleStatusUpdate]; [ticket] is [route.params.ticket] and
    [navigation_goBack] the [goBack] of the [navigation] prop. *)
Definition handleStatusUpdate (navigation_goBack : prog unit) (ticket : Ticket)
    (newStatus : string) : prog unit :=
  try_catch
    (updateTicketStatus (id ticket) newStatus;;
     await (Alert_alert "Success" "Ticket status updated!");;
     navigation_goBack)
    (fun error => await (Alert_alert "Error" (message error))).

(* ================================================================== *)
(** ** Vocabulary of the further statements *)

(** The outcome of the next read of a ticket. *)
Definition read_ticket (i : string) (w : World) : Error + option TicketDoc :=
  match faults w with
  | Rejects e :: _ => inl e
  | Stale :: _ => inr None
  | _ => inr (lookup i (tickets w))
  end.

(** The call that comes [i] calls from now is not rejected. *)
Definition not_rejected (i : nat) (w : World) : Prop :=
  forall e, fault_at i w <> Rejects e.

(** The error of the store for an update of a document that is not
    there. *)
Definition not_found : Error :=
  {| code := Some "firestore/not-found"; message := "No document to update" |}.

(** The identity the auth service gives to the next account. *)
Definition next_identity (email : string) (w : World) : Identity :=
  {| uid := user_id (length (accounts w)); email := email |}.

(** A thrown error made by [new Error(m)] with a message to show. *)
Definition fresh_error (e : Error) : Prop := code e = None /\ message e <> "".

(** What of a ticket no update may change. *)
Definition fixed_part (d : string * TicketDoc) : string * (string * string * string * string * FieldValue) :=
  (fst d, (clientId (snd d), title (snd d), description (snd d), type (snd d),
           createdAt (snd d))).

(** The world with one more alert shown. *)
Definition alerted (w : World) (heading msg : string) : World :=
  set_alerts w (alerts w ++ [(heading, msg)]).

(** Alice has filed one ticket. *)
Definition alice_with_ticket : World :=
  Eval vm_compute in
    snd (exec (createTicket "Crash on launch" "App crashes" "bug") alice_signed_in).

(* ================================================================== *)
(** ** src/screens/auth/LoginScreen.js *)

(** [handleLogin], with the state of the form it reads. *)
Definition handleLogin (email password : string) : prog unit :=
  try_catch
    (signIn email password;; Ret tt)
    (fun error => await (Alert_alert "Error" (message error))).

(* ================================================================== *)
(** ** The list screens: ClientHomeScreen.js and AdminHomeScreen.js *)

(** The state of a list screen ([useState]); the two screens have the
    same. *)
Record ListState := mkList {
  l_tickets : list Ticket;
  l_loading : bool;
  l_refreshing : bool;
  l_error : option string
}.

Definition initialList : ListState :=
  {| l_tickets := []; l_loading := true; l_refreshing := false; l_error := None |}.

(** The callback given to [getMyTickets] / [getAllTickets] for the data. *)
Definition onData (data : list Ticket) (s : ListState) : ListState :=
  {| l_tickets := data; l_loading := false; l_refreshing := false; l_error := None |}.

(** The callback given for the errors of the subscription. *)
Definition onSubscriptionError (err : Error) (s : ListState) : ListState :=
  {| l_tickets := l_tickets s; l_loading := false; l_refreshing := false;
     l_error := Some (message err) |}.

(** The [catch] around the subscription. *)
Definition onSetupError (err : Error) (s : ListState) : ListState :=
  {| l_tickets := l_tickets s; l_loading := false; l_refreshing := l_refreshing s;
     l_error := Some (message err) |}.

Definition onRefresh (s : ListState) : ListState :=
  {| l_tickets := l_tickets s; l_loading := l_loading s; l_refreshing := true;
     l_error := l_error s |}.

(** The Retry button of [renderError]. *)
Definition onRetry (s : ListState) : ListState :=
  {| l_tickets := l_tickets s; l_loading := true; l_refreshing := l_refreshing s;
     l_error := None |}.

(** The number in the header: [tickets.length]. *)
Definition header_total (s : ListState) : nat := length (l_tickets s).

(** What happens on a list screen between two deliveries. *)
Inductive ListAction :=
| Refresh
| Retry
| SubscriptionError (err : Error)
| SetupError (err : Error).

Definition act (a : ListAction) (s : ListState) : ListState :=
  match a with
  | Refresh => onRefresh s
  | Retry => onRetry s
  | SubscriptionError err => onSubscriptionError err s
  | SetupError err => onSetupError err s
  end.
(* ================================================================== *)
(** ** Running programs: equations *)

Section ExecEquations.

Context {A B : Type}.

Lemma exec_bind (p : prog A) (f : A -> prog B) (w : World) :
  exec (bind p f) w =
  match exec p w with
  | (inr a, w1) => exec (f a) w1
  | (inl e, w1) => (inl e, w1)
  end.
Proof.
  revert w; induction p as [a | e | R o k IH]; intro w; simpl.
  - destruct (exec (f a) w); reflexivity.
  - reflexivity.
  - destruct (perform o w) as [r w1]. apply IH.
Qed.

Lemma exec_try_catch (p : prog A) (h : Error -> prog A) (w : World) :
  exec (try_catch p h) w =
  match exec p w with
  | (inr a, w1) => (inr a, w1)
  | (inl e, w1) => exec (h e) w1
  end.
Proof.
  revert w; induction p as [a | e | R o k IH]; intro w; simpl.
  - reflexivity.
  - destruct (exec (h e) w); reflexivity.
  - destruct (perform o w) as [r w1]. apply IH.
Qed.

End ExecEquations.

Lemma exec_try_finally {A} (p : prog A) (f : prog unit) (w : World) :
  exec (try_finally p f) w =
  let (r, w1) := exec p w in
  match exec f w1 with
  | (inr _, w2) => (r, w2)
  | (inl e, w2) => (inl e, w2)
  end.
Proof.
  unfold try_finally.
  rewrite exec_bind, exec_try_catch, exec_bind.
  destruct (exec p w) as [[e | a] w1]; simpl;
    rewrite exec_bind; destruct (exec f w1) as [[e' | []] w2]; reflexivity.
Qed.

Lemma exec_await {R} (o : op R) (w : World) :
  exec (await o) w = perform o w.
Proof.
  unfold await; simpl. destruct (perform o w) as [[e | v] w1]; reflexivity.
Qed.

(** A call that reaches the service, by the next fault. *)
Lemma remote_eq {R} (o : op R) serve (w : World) :
  remote o serve w =
  match faults w with
  | [] => serve false (record_call o w)
  | NoFault :: rest => serve false (set_faults (record_call o w) rest)
  | Rejects e :: rest => (inl e, set_faults (record_call o w) rest)
  | Stale :: rest => serve true (set_faults (record_call o w) rest)
  end.
Proof.
  unfold remote, next_fault; simpl.
  destruct (faults w) as [| [| e |] rest]; reflexivity.
Qed.

Lemma perform_getDoc_users (u : string) (w : World) :
  perform (getDoc_users u) w = (read_user u w, after_call (getDoc_users u) w).
Proof.
  simpl. rewrite remote_eq. unfold read_user, after_call.
  destruct (faults w) as [| [| e |] rest] eqn:F; simpl; try reflexivity.
  unfold record_call, set_log, set_faults; simpl. rewrite F. reflexivity.
Qed.

(* ================================================================== *)
(** ** Strings *)

Lemma truthy_false (s : string) : truthy s = false <-> s = "".
Proof. destruct s; simpl; split; intro H; congruence. Qed.

Lemma truthy_true (s : string) : truthy s = true <-> s <> "".
Proof. destruct s; simpl; split; intro H; congruence. Qed.

Lemma or_else_truthy (a b : string) : truthy a = true -> or_else a b = a.
Proof. unfold or_else; intros ->; reflexivity. Qed.

Lemma or_else_nonempty (a b : string) : b <> "" -> or_else a b <> "".
Proof.
  unfold or_else; intro Hb. destruct (truthy a) eqn:T; [| exact Hb].
  apply truthy_true; exact T.
Qed.

Lemma includes_In (xs : list string) (x : string) :
  includes xs x = true <-> In x xs.
Proof.
  unfold includes. rewrite existsb_exists. split.
  - intros [y [Hy E]]. apply String.eqb_eq in E. subst; exact Hy.
  - intro H. exists x. split; [exact H | apply String.eqb_refl].
Qed.

Lemma includes_not_In (xs : list string) (x : string) :
  includes xs x = false <-> ~ In x xs.
Proof.
  rewrite <- includes_In. destruct (includes xs x); split; intro H;
    congruence.
Qed.

(* ================================================================== *)
(** ** signUp: validation *)

(** The three checks of [signUp], as the source orders them. *)
Lemma signUp_refuses_cases (e p n r : string) :
  signUp_refuses e p n r ->
  (negb (truthy e) || negb (truthy p) || negb (truthy n) || negb (truthy r) = true)
  \/ Nat.ltb (String.length p) 6 = true
  \/ negb (includes ["client"; "admin"] r) = true.
Proof.
  intros [H | [H | [H | [H | [H | H]]]]]; try subst.
  - left; reflexivity.
  - left; destruct (truthy e); reflexivity.
  - left; destruct (truthy e), (truthy p); reflexivity.
  - left; destruct (truthy e), (truthy p), (truthy n); reflexivity.
  - right; left. apply Nat.ltb_lt; exact H.
  - right; right. apply includes_not_In in H. rewrite H; reflexivity.
Qed.

(** C3.  An input with a role outside client/admin, with an empty field or
    with a password shorter than 6 makes [signUp] throw one of its three
    validation errors at once: the program is a bare [throw], it calls
    nothing, so whatever the state of the service no identity is created,
    no profile is written and no call is logged.  When only the role is at
    fault the error is the one about the role. *)
Theorem signUp_invalid_input_rejected_before_any_call (e p n r : string) :
  signUp_refuses e p n r ->
  exists m,
    In m Errors.ValidationError
    /\ signUp e p n r = Throw (new_Error m)
    /\ (forall w, exec (signUp e p n r) w = (inl (new_Error m), w))
    /\ (e <> "" -> p <> "" -> n <> "" -> r <> "" -> 6 <= String.length p ->
        m = Errors.RoleNotAllowed).
Proof.
  intro H. apply signUp_refuses_cases in H. unfold signUp.
  destruct (negb (truthy e) || negb (truthy p) || negb (truthy n)
            || negb (truthy r)) eqn:C1.
  { exists Errors.AllFieldsRequired. simpl.
    repeat split; auto.
    intros He Hp Hn Hr _.
    apply truthy_true in He, Hp, Hn, Hr.
    rewrite He, Hp, Hn, Hr in C1. discriminate. }
  destruct (Nat.ltb (String.length p) 6) eqn:C2.
  { exists Errors.PasswordTooShort. simpl.
    repeat split; auto.
    intros _ _ _ _ Hlen. apply Nat.ltb_lt in C2. lia. }
  destruct (negb (includes ["client"; "admin"] r)) eqn:C3.
  { exists Errors.RoleNotAllowed. simpl.
    repeat split; auto. }
  destruct H as [H | [H | H]]; discriminate.
Qed.

(** A role of neither kind, every other field in order. *)
Lemma signUp_invalid_input_rejected_witness :
  exists m,
    In m Errors.ValidationError
    /\ signUp "a@x.com" "secret1" "Alice" "owner" = Throw (new_Error m)
    /\ (forall w, exec (signUp "a@x.com" "secret1" "Alice" "owner") w
                  = (inl (new_Error m), w))
    /\ ("a@x.com" <> "" -> "secret1" <> "" -> "Alice" <> "" -> "owner" <> "" ->
        6 <= String.length "secret1" -> m = Errors.RoleNotAllowed).
Proof.
  apply (signUp_invalid_input_rejected_before_any_call
           "a@x.com" "secret1" "Alice" "owner").
  unfold signUp_refuses. do 5 right.
  simpl. intros [H | [H | []]]; discriminate.
Defined.

(* ================================================================== *)
(** ** updateTicketStatus: validation *)

(** The message built from [validStatuses.join(', ')]. *)
Lemma InvalidStatus_message :
  ("Status must be one of: " ++ join ", " validStatuses)%string = Errors.InvalidStatus.
Proof. reflexivity. Qed.

(** It names each of the four statuses. *)
Lemma InvalidStatus_names_allowed_set :
  forallb (fun s => contains s Errors.InvalidStatus) validStatuses = true.
Proof. reflexivity. Qed.

(** C2, as stated, fails at the empty ticket id: the check of the id comes
    first, so a status outside the allowed set is answered by the error
    about the id, whose message names no status at all.  (Nothing is
    mutated there either.) *)
Lemma updateTicketStatus_empty_id_counterexample :
  ~ In "archived" validStatuses
  /\ exec (updateTicketStatus "" "archived") empty
     = (inl (new_Error Errors.TicketIdRequired), empty)
  /\ new_Error Errors.TicketIdRequired <> new_Error Errors.InvalidStatus
  /\ forallb (fun s => negb (contains s Errors.TicketIdRequired)) validStatuses = true.
Proof.
  split; [| split; [| split]].
  - simpl. intros [H | [H | [H | [H | []]]]]; discriminate.
  - reflexivity.
  - discriminate.
  - reflexivity.
Qed.

(** C2, amended.  With an empty ticket id [updateTicketStatus] throws
    "Ticket ID is required", whatever the status, allowed or not.  With a
    non-empty ticket id and a status outside open / in-progress /
    resolved / closed it throws InvalidStatus, whose message names the
    four allowed statuses.  In both cases it throws at once and calls
    nothing, so no ticket is touched in any state of the service. *)
Theorem updateTicketStatus_invalid_status_no_mutation (ticketId status : string) :
  (ticketId = "" ->
   updateTicketStatus ticketId status = Throw (new_Error Errors.TicketIdRequired)
   /\ forall w, exec (updateTicketStatus ticketId status) w
                = (inl (new_Error Errors.TicketIdRequired), w))
  /\ (ticketId <> "" ->
      ~ In status validStatuses ->
      updateTicketStatus ticketId status = Throw (new_Error Errors.InvalidStatus)
      /\ forall w, exec (updateTicketStatus ticketId status) w
                   = (inl (new_Error Errors.InvalidStatus), w))
  /\ forallb (fun s => contains s Errors.InvalidStatus) validStatuses = true.
Proof.
  split; [| split].
  - intros ->.
    assert (E : updateTicketStatus "" status = Throw (new_Error Errors.TicketIdRequired))
      by reflexivity.
    split; [exact E |]. intro w. rewrite E; reflexivity.
  - intros Hid H. apply includes_not_In in H. apply truthy_true in Hid.
    assert (E : updateTicketStatus ticketId status
                = Throw (new_Error Errors.InvalidStatus)).
    { unfold updateTicketStatus. rewrite H, Hid. reflexivity. }
    split; [exact E |]. intro w. rewrite E; reflexivity.
  - reflexivity.
Qed.

(** An allowed status with no ticket id, and a ticket id with a status
    that is not allowed. *)
Lemma updateTicketStatus_invalid_status_witness :
  (forall w, exec (updateTicketStatus "" "open") w
             = (inl (new_Error Errors.TicketIdRequired), w))
  /\ (forall w, exec (updateTicketStatus "ticket0" "archived") w
                = (inl (new_Error Errors.InvalidStatus), w)).
Proof.
  split.
  - apply (proj1 (updateTicketStatus_invalid_status_no_mutation "" "open")).
    reflexivity.
  - apply (proj1 (proj2 (updateTicketStatus_invalid_status_no_mutation
                           "ticket0" "archived"))).
    + discriminate.
    + simpl. intros [H | [H | [H | [H | []]]]]; discriminate.
Defined.

(* ================================================================== *)
(** ** createTicket *)

Lemma perform_add_tickets (d : TicketDoc) (w : World) :
  perform (add_tickets d) w =
  match faults w with
  | Rejects e :: _ => (inl e, after_call (add_tickets d) w)
  | _ =>
      (inr (ticket_id (length (tickets w))),
       set_clock
         (set_tickets (after_call (add_tickets d) w)
            (tickets w ++ [(ticket_id (length (tickets w)), stored_ticket (clock w) d)]))
         (S (clock w)))
  end.
Proof.
  cbn [perform]. rewrite remote_eq. unfold after_call.
  destruct (faults w) as [| [| e |] rest] eqn:F; try reflexivity.
  unfold record_call, set_log, set_faults, set_tickets, set_clock; simpl.
  rewrite F; reflexivity.
Qed.

Lemma createTicket_not_logged_in (t d ty : string) (w : World) :
  session w = None ->
  exec (createTicket t d ty) w = (inl (new_Error Errors.NotAuthenticated), w).
Proof.
  intro Hs. unfold createTicket.
  rewrite exec_try_catch, exec_bind, exec_await.
  change (perform authInstance_currentUser w) with (@inr Error _ (session w), w).
  rewrite Hs. reflexivity.
Qed.

Lemma createTicket_refused (t d ty : string) (u : Identity) (w : World) :
  session w = Some u ->
  createTicket_accepts t d ty = false ->
  exec (createTicket t d ty) w =
  (inl (new_Error (if truthy t && truthy d && truthy ty
                   then Errors.TypeNotAllowed else Errors.AllFieldsRequired)), w).
Proof.
  intros Hs Hv. unfold createTicket_accepts in Hv. unfold createTicket.
  rewrite exec_try_catch, exec_bind, exec_await.
  change (perform authInstance_currentUser w) with (@inr Error _ (session w), w).
  rewrite Hs.
  destruct (truthy t), (truthy d), (truthy ty); try reflexivity.
  cbn [andb] in Hv. cbn [negb orb throw_if bind]. rewrite Hv. reflexivity.
Qed.

Lemma createTicket_exec (t d ty : string) (u : Identity) (w : World) :
  session w = Some u ->
  createTicket_accepts t d ty = true ->
  exec (createTicket t d ty) w =
  match perform (add_tickets (new_ticket t d ty u (clientName_of u w)))
                (after_call (getDoc_users (uid u)) w) with
  | (inl e, w2) => (inl (new_Error (or_else (message e) "Failed to create ticket")), w2)
  | (inr i, w2) => (inr i, w2)
  end.
Proof.
  intros Hs Hv. unfold createTicket_accepts in Hv.
  apply andb_prop in Hv as [Hv Hty]. apply andb_prop in Hv as [Hv H3].
  apply andb_prop in Hv as [H1 H2].
  unfold createTicket, clientName_of, new_ticket.
  rewrite exec_try_catch, exec_bind, exec_await.
  change (perform authInstance_currentUser w) with (@inr Error _ (session w), w).
  rewrite Hs, H1, H2, H3, Hty.
  cbn [negb orb throw_if bind].
  rewrite exec_bind, exec_try_catch, exec_bind, exec_await, perform_getDoc_users.
  destruct (read_user (uid u) w) as [e | [userData |]]; cbn [exec];
    rewrite exec_await;
    match goal with
    | |- context [perform ?o ?w] => destruct (perform o w) as [[e' | i] w2]
    end; reflexivity.
Qed.

(** What a call of [createTicket] that returns has done: it was made by a
    signed-in user with arguments that pass the checks, and one document
    was added, built from them. *)
Lemma createTicket_success (t d ty : string) (w w' : World) (i : string) :
  exec (createTicket t d ty) w = (inr i, w') ->
  exists u,
    session w = Some u
    /\ createTicket_accepts t d ty = true
    /\ tickets w' =
       tickets w ++ [(i, stored_ticket (clock w) (new_ticket t d ty u (clientName_of u w)))].
Proof.
  intro E. destruct (session w) as [u |] eqn:Hs.
  2: { rewrite (createTicket_not_logged_in _ _ _ _ Hs) in E. discriminate. }
  destruct (createTicket_accepts t d ty) eqn:Hv.
  2: { rewrite (createTicket_refused _ _ _ _ _ Hs Hv) in E. discriminate. }
  exists u. split; [reflexivity | split; [reflexivity |]].
  rewrite (createTicket_exec _ _ _ _ _ Hs Hv), perform_add_tickets in E.
  destruct (faults (after_call (getDoc_users (uid u)) w)) as [| [| e |] rest];
    inversion E; subst; reflexivity.
Qed.

(** C1.  A call of [createTicket] that returns an id has added exactly
    one ticket, under that id, whose status is open and whose clientId
    is the uid of the user signed in when the call was made, whatever the
    title, description and type; with nobody signed in the call fails with
    NotAuthenticated and leaves the service as it was (nothing created,
    nothing called). *)
Theorem createTicket_status_open_and_owner (t d ty : string) (w : World) :
  (forall i w', exec (createTicket t d ty) w = (inr i, w') ->
     exists u doc,
       session w = Some u
       /\ tickets w' = tickets w ++ [(i, doc)]
       /\ status doc = "open"
       /\ clientId doc = uid u)
  /\ (session w = None ->
      exec (createTicket t d ty) w = (inl (new_Error Errors.NotAuthenticated), w)).
Proof.
  split.
  - intros i w' E. apply createTicket_success in E as [u [Hs [_ Ht]]].
    exists u. eexists. split; [exact Hs | split; [exact Ht | split; reflexivity]].
  - apply createTicket_not_logged_in.
Qed.

Lemma createTicket_status_open_and_owner_witness :
  (exists u doc,
     session alice_signed_in = Some u
     /\ tickets (snd (exec (createTicket "Crash on launch" "App crashes" "bug")
                           alice_signed_in))
        = tickets alice_signed_in ++ [("ticket0", doc)]
     /\ status doc = "open"
     /\ clientId doc = uid u)
  /\ exec (createTicket "Crash on launch" "App crashes" "bug") empty
     = (inl (new_Error Errors.NotAuthenticated), empty).
Proof.
  split.
  - apply (proj1 (createTicket_status_open_and_owner
                    "Crash on launch" "App crashes" "bug" alice_signed_in)
             "ticket0"). vm_compute. reflexivity.
  - apply (proj2 (createTicket_status_open_and_owner
                    "Crash on launch" "App crashes" "bug" empty)). reflexivity.
Defined.

(* ================================================================== *)
(** ** trim *)






(* ================================================================== *)
(** ** createTicket and handleSubmit: what is checked *)







(* ================================================================== *)
(** ** signUp: the identity outlives a failed profile *)

Lemma lookup_put_same {V} (k : string) (v : V) (m : list (string * V)) :
  lookup k (put k v m) = Some v.
Proof.
  induction m as [| [k' v'] m IH]; simpl.
  - rewrite String.eqb_refl; reflexivity.
  - destruct (k' =? k)%string eqn:E; simpl.
    + rewrite String.eqb_refl; reflexivity.
    + rewrite E; exact IH.
Qed.

Lemma perform_setDoc_users (u : string) (d : UserDoc) (w : World) :
  perform (setDoc_users u d) w =
  match faults w with
  | Rejects e :: _ => (inl e, after_call (setDoc_users u d) w)
  | _ =>
      (inr tt,
       set_clock
         (set_users (after_call (setDoc_users u d) w)
            (put u (stored_user (clock w) d) (users w)))
         (S (clock w)))
  end.
Proof.
  cbn [perform]. rewrite remote_eq. unfold after_call.
  destruct (faults w) as [| [| e |] rest] eqn:F; try reflexivity.
  unfold record_call, set_log, set_faults, set_users, set_clock; simpl.
  rewrite F; reflexivity.
Qed.

(** What the auth service has done when it returns a new identity. *)
Lemma createUser_created (e p : string) (w w1 : World) (u : Identity) :
  perform (createUserWithEmailAndPassword e p) w = (inr u, w1) ->
  accounts w1 = accounts w ++ [mkAccount (uid u) e p]
  /\ session w1 = Some u
  /\ users w1 = users w
  /\ log w1 = log w ++ [Called (createUserWithEmailAndPassword e p)].
Proof.
  cbn [perform]. rewrite remote_eq. intro H.
  destruct (faults w) as [| [| err |] rest]; try discriminate;
    cbn [accounts record_call set_log set_faults] in H;
    destruct (negb (has_at e)); try discriminate;
    destruct (Nat.ltb (String.length p) 6); try discriminate;
    destruct (find_account e (accounts w)); try discriminate;
    inversion H; subst; simpl; auto.
Qed.

Lemma signUp_exec (e p n r : string) (w : World) :
  ~ signUp_refuses e p n r ->
  exec (signUp e p n r) w =
  match perform (createUserWithEmailAndPassword e p) w with
  | (inl err, w1) => (inl (signUp_rethrown err), w1)
  | (inr u, w1) =>
      match perform (setDoc_users (uid u) (profile_of e n r)) w1 with
      | (inl err, w2) => (inl (signUp_rethrown err), w2)
      | (inr _, w2) =>
          match perform (getDoc_users (uid u)) w2 with
          | (inl err, w3) => (inl (signUp_rethrown err), w3)
          | (inr None, w3) => (inl (new_Error Errors.ProfileCreationError), w3)
          | (inr (Some _), w3) => (inr u, w3)
          end
      end
  end.
Proof.
  intro H. unfold signUp_refuses in H.
  assert (He : truthy e = true) by (apply truthy_true; tauto).
  assert (Hp : truthy p = true) by (apply truthy_true; tauto).
  assert (Hn : truthy n = true) by (apply truthy_true; tauto).
  assert (Hr : truthy r = true) by (apply truthy_true; tauto).
  assert (Hl : Nat.ltb (String.length p) 6 = false) by (apply Nat.ltb_ge; lia).
  assert (Hi : includes ["client"; "admin"] r = true).
  { destruct (includes ["client"; "admin"] r) eqn:I; [reflexivity |].
    apply includes_not_In in I. tauto. }
  unfold signUp. rewrite He, Hp, Hn, Hr, Hl, Hi.
  cbn [negb orb throw_if bind].
  rewrite exec_try_catch, exec_bind, exec_await.
  destruct (perform (createUserWithEmailAndPassword e p) w) as [[err | u] w1];
    [reflexivity |].
  rewrite exec_bind, exec_await.
  change {| u_email := Some e; u_name := Some n; u_role := Some r;
            u_createdAt := Some serverTimestamp |} with (profile_of e n r).
  destruct (perform (setDoc_users (uid u) (profile_of e n r)) w1) as [[err | []] w2];
    [reflexivity |].
  rewrite exec_bind, exec_await.
  destruct (perform (getDoc_users (uid u)) w2) as [[err | [doc |]] w3]; reflexivity.
Qed.

(** C4, as stated, fails when it is the write of the profile that is
    rejected: the identity has been created and stays, no profile exists,
    but the error [signUp] throws carries the message of the store's
    error, not the one of ProfileCreationError. *)
Lemma signUp_profile_write_rejected_counterexample :
  let w := set_faults empty [NoFault; Rejects permission_denied] in
  let out := exec (signUp "bob@x.com" "secret1" "Bob" "client") w in
  fst out = inl (new_Error "Missing or insufficient permissions.")
  /\ fst out <> inl (new_Error Errors.ProfileCreationError)
  /\ accounts (snd out) = [mkAccount "user0" "bob@x.com" "secret1"]
  /\ users (snd out) = [].
Proof.
  cbv zeta. split; [reflexivity | split; [| split; reflexivity]].
  vm_compute. discriminate.
Qed.

(** C4, amended.  Once the identity has been created, [signUp] never
    removes it: whatever happens next, the account is still there and
    still signed in when [signUp] ends, and the only calls made after the
    creation are the write of the profile and its read-back.  If the write
    is rejected no profile is written and the error thrown carries the
    message of the rejection (or "Failed to create account" when it has
    none); if the read-back finds no document the error is
    ProfileCreationError; if the read-back is rejected the error carries
    the message of that rejection. *)
Theorem signUp_keeps_identity_when_profile_fails
    (e p n r : string) (w w1 : World) (u : Identity) :
  ~ signUp_refuses e p n r ->
  perform (createUserWithEmailAndPassword e p) w = (inr u, w1) ->
  let out := exec (signUp e p n r) w in
  (In (mkAccount (uid u) e p) (accounts (snd out))
   /\ session (snd out) = Some u
   /\ (log (snd out) = log w1 ++ [Called (setDoc_users (uid u) (profile_of e n r))]
       \/ log (snd out) = log w1 ++ [Called (setDoc_users (uid u) (profile_of e n r));
                                     Called (getDoc_users (uid u))]))
  /\ (forall err rest, faults w1 = Rejects err :: rest ->
      fst out = inl (signUp_rethrown err) /\ users (snd out) = users w)
  /\ (forall f rest, faults w1 = f :: Stale :: rest -> (forall err, f <> Rejects err) ->
      fst out = inl (new_Error Errors.ProfileCreationError))
  /\ (forall f err rest, faults w1 = f :: Rejects err :: rest ->
      (forall err', f <> Rejects err') ->
      fst out = inl (signUp_rethrown err)).
Proof.
  intros Hv Hc out. subst out.
  rewrite (signUp_exec _ _ _ _ _ Hv), Hc.
  apply createUser_created in Hc as [Ha [Hs [Hu Hl]]].
  assert (Hin : In (mkAccount (uid u) e p) (accounts w1)).
  { rewrite Ha. apply in_or_app; right; left; reflexivity. }
  rewrite perform_setDoc_users.
  destruct (faults w1) as [| f1 rest1] eqn:F1; [| destruct f1 as [| err1 |]];
    cbv beta iota; rewrite ?perform_getDoc_users; unfold read_user, after_call;
    cbn [faults set_clock set_users set_faults record_call set_log tl users];
    rewrite ?F1; cbn [tl];
    try (destruct rest1 as [| [| err2 |] rest2]);
    rewrite ?lookup_put_same; cbn [fst snd accounts session log users set_clock
      set_users set_faults record_call set_log];
    rewrite <- ?app_assoc; cbn [app];
    (split; [split; [exact Hin | split; [exact Hs | auto]] |]);
    (split; [intros ? ? E; inversion E; subst; auto |]);
    (split; [intros ? ? E; inversion E; subst |
             intros ? ? ? E; inversion E; subst]);
    try reflexivity;
    try (intro N; exfalso; eapply N; reflexivity).
Qed.

Lemma signUp_accepts_bob : ~ signUp_refuses "bob@x.com" "secret1" "Bob" "client".
Proof.
  unfold signUp_refuses.
  intros [H | [H | [H | [H | [H | H]]]]]; try discriminate.
  - simpl in H. lia.
  - apply H. left; reflexivity.
Qed.

(** The read-back finds nothing: ProfileCreationError, and the account of
    Bob is there, signed in. *)
Lemma signUp_keeps_identity_witness :
  fst (exec (signUp "bob@x.com" "secret1" "Bob" "client") profile_not_visible)
  = inl (new_Error Errors.ProfileCreationError)
  /\ In (mkAccount "user0" "bob@x.com" "secret1")
        (accounts (snd (exec (signUp "bob@x.com" "secret1" "Bob" "client")
                             profile_not_visible)))
  /\ session (snd (exec (signUp "bob@x.com" "secret1" "Bob" "client")
                        profile_not_visible)) = Some bob.
Proof.
  pose proof (signUp_keeps_identity_when_profile_fails
                "bob@x.com" "secret1" "Bob" "client" profile_not_visible
                (snd (perform (createUserWithEmailAndPassword "bob@x.com" "secret1")
                        profile_not_visible))
                bob signUp_accepts_bob eq_refl) as [H1 [_ [H3 _]]].
  split.
  - apply (H3 NoFault []); [reflexivity | intros; discriminate].
  - split; [exact (proj1 H1) | exact (proj1 (proj2 H1))].
Defined.

(* ================================================================== *)
(** ** getUserRole: the bounded retry *)

Lemma getUserRole_exec (userId : string) (retries : nat) (w : World) :
  userId <> "" ->
  exec (getUserRole userId retries) w =
  let w1 := after_call (getDoc_users userId) w in
  match read_user userId w with
  | inl e => (inl (new_Error (or_else (message e) "Failed to get user role")), w1)
  | inr None =>
      match retries with
      | S retries' => exec (getUserRole userId retries') (after_delay 500 w1)
      | O => (inl (new_Error Errors.ProfileNotFound), w1)
      end
  | inr (Some userData) =>
      if truthy (field (u_role userData))
      then (inr (field (u_role userData)), w1)
      else (inl (new_Error Errors.RoleMissing), w1)
  end.
Proof.
  intro H. apply truthy_true in H. cbv zeta.
  destruct retries as [| n];
    cbn [getUserRole]; rewrite H; cbn [negb throw_if bind];
    rewrite exec_bind, exec_try_catch, exec_bind, exec_await, perform_getDoc_users;
    destruct (read_user userId w) as [e | [userData |]]; try reflexivity;
    try (cbn [exec bind]; destruct (truthy (field (u_role userData))); reflexivity).
Qed.

Lemma getUserRole_no_id (retries : nat) (w : World) :
  exec (getUserRole "" retries) w = (inl (new_Error "User ID is required"), w).
Proof. destruct retries; reflexivity. Qed.

Lemma retry_trace_counts (userId : string) (k : nat) :
  count is_read (retry_trace userId k) = S k
  /\ count (is_wait 500) (retry_trace userId k) = k
  /\ length (retry_trace userId k) = S k + k.
Proof.
  unfold count. induction k as [| k [IH1 [IH2 IH3]]]; simpl.
  - repeat split.
  - rewrite IH1, IH2, IH3. repeat split; lia.
Qed.

Lemma log_after_read_and_wait (userId : string) (w : World) (k : nat) :
  log (after_delay 500 (after_call (getDoc_users userId) w)) ++ retry_trace userId k
  = log w ++ retry_trace userId (S k).
Proof.
  unfold after_delay, after_call. simpl. rewrite <- !app_assoc. reflexivity.
Qed.

Lemma fault_at_shift (userId : string) (w : World) (i : nat) :
  fault_at i (after_delay 500 (after_call (getDoc_users userId) w)) = fault_at (S i) w.
Proof.
  unfold fault_at, after_delay, after_call. simpl.
  destruct (faults w) as [| f rest]; [destruct i |]; reflexivity.
Qed.

Lemma read_user_stale (userId : string) (w : World) :
  fault_at 0 w = Stale -> read_user userId w = inr None.
Proof.
  unfold fault_at, read_user. destruct (faults w) as [| f rest]; simpl;
    intro H; [discriminate | rewrite H; reflexivity].
Qed.

Lemma read_user_served (userId : string) (w : World) :
  fault_at 0 w = NoFault -> read_user userId w = inr (lookup userId (users w)).
Proof.
  unfold fault_at, read_user. destruct (faults w) as [| f rest]; simpl;
    intro H; [| rewrite H]; reflexivity.
Qed.

(** The resolution is over after at most [retries] waits. *)
Lemma getUserRole_bounded (userId : string) (retries : nat) (w : World) :
  userId <> "" ->
  exists k, k <= retries
    /\ log (snd (exec (getUserRole userId retries) w)) = log w ++ retry_trace userId k.
Proof.
  intro H. revert w. induction retries as [| n IH]; intro w;
    rewrite (getUserRole_exec _ _ _ H); cbv zeta;
    destruct (read_user userId w) as [e | [userData |]];
    try (exists 0; split; [lia |];
         try destruct (truthy (field (u_role userData))); reflexivity).
  destruct (IH (after_delay 500 (after_call (getDoc_users userId) w))) as [k [Hk E]].
  exists (S k). split; [lia |]. rewrite E. apply log_after_read_and_wait.
Qed.

(** No read finds the document: ProfileNotFound after the last retry. *)
Lemma getUserRole_never_visible (userId : string) (retries : nat) (w : World) :
  userId <> "" ->
  (forall i, i <= retries -> sees_nothing userId w i) ->
  fst (exec (getUserRole userId retries) w) = inl (new_Error Errors.ProfileNotFound)
  /\ log (snd (exec (getUserRole userId retries) w)) = log w ++ retry_trace userId retries.
Proof.
  intro H. revert w. induction retries as [| n IH]; intros w Hn;
    rewrite (getUserRole_exec _ _ _ H); cbv zeta;
    (assert (R : read_user userId w = inr None);
     [ destruct (Hn 0 (Nat.le_0_l _)) as [S0 | [S0 L0]];
       [ apply read_user_stale; exact S0
       | rewrite (read_user_served _ _ S0), L0; reflexivity ]
     | rewrite R ]).
  - split; reflexivity.
  - destruct (IH (after_delay 500 (after_call (getDoc_users userId) w))) as [E1 E2].
    + intros i Hi. unfold sees_nothing. rewrite fault_at_shift.
      apply (Hn (S i)). lia.
    + split; [exact E1 |]. rewrite E2. apply log_after_read_and_wait.
Qed.

(** The document shows at the read that follows [k] stale ones. *)
Lemma getUserRole_visible_after (userId : string) (k retries : nat) (w : World)
    (userData : UserDoc) :
  userId <> "" ->
  k <= retries ->
  (forall i, i < k -> fault_at i w = Stale) ->
  fault_at k w = NoFault ->
  lookup userId (users w) = Some userData ->
  fst (exec (getUserRole userId retries) w)
  = (if truthy (field (u_role userData))
     then inr (field (u_role userData))
     else inl (new_Error Errors.RoleMissing))
  /\ log (snd (exec (getUserRole userId retries) w)) = log w ++ retry_trace userId k.
Proof.
  intro H. revert retries w. induction k as [| k IH]; intros n w Hk Hs Hf Hl;
    rewrite (getUserRole_exec _ _ _ H); cbv zeta.
  - rewrite (read_user_served _ _ Hf), Hl.
    destruct (truthy (field (u_role userData))); split; reflexivity.
  - rewrite (read_user_stale _ _ (Hs 0 (Nat.lt_0_succ _))).
    destruct n as [| n]; [lia |].
    destruct (IH n (after_delay 500 (after_call (getDoc_users userId) w))) as [E1 E2].
    + lia.
    + intros i Hi. rewrite fault_at_shift. apply Hs. lia.
    + rewrite fault_at_shift. exact Hf.
    + exact Hl.
    + split; [exact E1 |]. rewrite E2. apply log_after_read_and_wait.
Qed.

(** C5.  [getUserRole] with its default of 3 retries always ends, after
    k + 1 reads of the profile and k waits of 500 ms in between, for some
    k of at most 3 (so at most 3 re-reads).  When none of the 4 reads
    finds the document it fails with ProfileNotFound, having used the 3
    retries.  When the document shows at the read after k stale ones (k at
    most 3), it stops there: it returns the stored role, or fails with
    RoleMissing when the document has no role (or an empty one). *)
Theorem getUserRole_bounded_retry (userId : string) (w : World) :
  userId <> "" ->
  let out := exec (getUserRole userId default_retries) w in
  (exists k, k <= 3
     /\ log (snd out) = log w ++ retry_trace userId k
     /\ count is_read (retry_trace userId k) = S k
     /\ count (is_wait 500) (retry_trace userId k) = k
     /\ length (retry_trace userId k) = S k + k)
  /\ ((forall i, i <= 3 -> sees_nothing userId w i) ->
      fst out = inl (new_Error Errors.ProfileNotFound)
      /\ log (snd out) = log w ++ retry_trace userId 3)
  /\ (forall k userData,
        k <= 3 ->
        (forall i, i < k -> fault_at i w = Stale) ->
        fault_at k w = NoFault ->
        lookup userId (users w) = Some userData ->
        log (snd out) = log w ++ retry_trace userId k
        /\ (forall role, u_role userData = Some role -> role <> "" ->
            fst out = inr role)
        /\ (field (u_role userData) = "" ->
            fst out = inl (new_Error Errors.RoleMissing))).
Proof.
  intros H out. subst out. unfold default_retries.
  split; [| split].
  - destruct (getUserRole_bounded userId 3 w H) as [k [Hk E]].
    exists k. split; [exact Hk | split; [exact E | apply retry_trace_counts]].
  - apply getUserRole_never_visible; exact H.
  - intros k userData Hk Hs Hf Hl.
    destruct (getUserRole_visible_after userId k 3 w userData H Hk Hs Hf Hl) as [E1 E2].
    split; [exact E2 | split].
    + intros role Hr Hne. rewrite E1, Hr. simpl.
      apply truthy_true in Hne. rewrite Hne. reflexivity.
    + intro He. rewrite E1, He. reflexivity.
Qed.

Lemma getUserRole_bounded_retry_witness :
  fst (exec (getUserRole "user0" default_retries)
            (set_faults alice_signed_in [Stale; Stale])) = inr "client"
  /\ fst (exec (getUserRole "user9" default_retries) alice_signed_in)
     = inl (new_Error Errors.ProfileNotFound).
Proof.
  split.
  - destruct (getUserRole_bounded_retry "user0"
                (set_faults alice_signed_in [Stale; Stale])) as [_ [_ H3]];
      [discriminate |].
    destruct (H3 2 (stored_user 0 (profile_of "alice@x.com" "Alice" "client")))
      as [_ [Hr _]].
    + lia.
    + intros i Hi. destruct i as [| [| i]]; [reflexivity | reflexivity | lia].
    + reflexivity.
    + reflexivity.
    + apply (Hr "client"); [reflexivity | discriminate].
  - destruct (getUserRole_bounded_retry "user9" alice_signed_in) as [_ [H2 _]];
      [discriminate |].
    apply H2. intros i Hi. right. split; [| reflexivity].
    destruct i; reflexivity.
Defined.

(* ================================================================== *)
(** ** getMyTickets and getAllTickets: what a listener delivers *)

Section Ordering.

Variable o : option (string * Direction).

Lemma insert_sorted_perm (d : string * TicketDoc) (l : list (string * TicketDoc)) :
  Permutation (d :: l) (insert_sorted o d l).
Proof.
  induction l as [| x rest IH]; cbn [insert_sorted].
  - apply Permutation_refl.
  - destruct (precedes o d x).
    + apply Permutation_refl.
    + eapply perm_trans; [apply perm_swap |]. apply perm_skip, IH.
Qed.

(** Ordering drops the documents without the field and keeps the others,
    each once. *)
Lemma order_docs_perm (l : list (string * TicketDoc)) :
  Permutation (filter (sortable o) l) (order_docs o l).
Proof.
  unfold order_docs.
  induction (filter (sortable o) l) as [| x rest IH]; cbn [fold_right].
  - apply perm_nil.
  - eapply perm_trans; [apply perm_skip, IH | apply insert_sorted_perm].
Qed.

(** When the order asked for puts no older document before a newer one,
    the results are newest first. *)
Hypothesis precedes_newer :
  forall d x, precedes o d x = true -> created x <= created d.
Hypothesis not_precedes_newer :
  forall d x, precedes o d x = false -> created d <= created x.

Lemma insert_sorted_newer (d : string * TicketDoc) (l : list (string * TicketDoc)) :
  StronglySorted newer l -> StronglySorted newer (insert_sorted o d l).
Proof.
  unfold newer. induction 1 as [| x rest Hs IH Hx]; cbn [insert_sorted].
  - constructor; constructor.
  - destruct (precedes o d x) eqn:C.
    + apply precedes_newer in C. constructor.
      * constructor; assumption.
      * constructor; [exact C |].
        eapply Forall_impl; [| exact Hx]. simpl; intros; lia.
    + apply not_precedes_newer in C. constructor; [exact IH |].
      eapply Permutation_Forall; [apply insert_sorted_perm |].
      constructor; assumption.
Qed.

Lemma order_docs_newer (l : list (string * TicketDoc)) :
  StronglySorted newer (order_docs o l).
Proof.
  unfold order_docs.
  induction (filter (sortable o) l) as [| x rest IH]; cbn [fold_right].
  - constructor.
  - apply insert_sorted_newer, IH.
Qed.

End Ordering.

(** [orderBy('createdAt','desc')]: every ticket has the field, and a
    document comes before another only if it is not older. *)
Lemma sortable_createdAt (dir : Direction) (l : list (string * TicketDoc)) :
  filter (sortable (Some ("createdAt", dir))) l = l.
Proof.
  induction l as [| d rest IH]; [reflexivity |].
  change (filter (sortable (Some ("createdAt", dir))) (d :: rest))
    with (d :: filter (sortable (Some ("createdAt", dir))) rest).
  rewrite IH; reflexivity.
Qed.

Lemma precedes_createdAt_desc (d x : string * TicketDoc) :
  precedes (Some ("createdAt", desc)) d x
  = Nat.ltb (created x) (created d)
    || (Nat.eqb (created x) (created d) && String.ltb (fst x) (fst d)).
Proof. reflexivity. Qed.

Lemma createdAt_desc_newer (d x : string * TicketDoc) :
  precedes (Some ("createdAt", desc)) d x = true -> created x <= created d.
Proof.
  rewrite precedes_createdAt_desc. intro H.
  apply orb_true_iff in H as [H | H].
  - apply Nat.ltb_lt in H. lia.
  - apply andb_true_iff in H as [H _]. apply Nat.eqb_eq in H. lia.
Qed.

Lemma createdAt_desc_not_newer (d x : string * TicketDoc) :
  precedes (Some ("createdAt", desc)) d x = false -> created d <= created x.
Proof.
  rewrite precedes_createdAt_desc. intro H.
  apply orb_false_iff in H as [H _]. apply Nat.ltb_ge in H. exact H.
Qed.

Lemma tickets_of_snapshot_sorted (l : list (string * TicketDoc)) :
  StronglySorted newer l -> newest_first (tickets_of_snapshot l).
Proof.
  unfold newest_first, tickets_of_snapshot.
  induction 1 as [| x rest Hs IH Hx]; simpl; constructor.
  - exact IH.
  - apply Forall_map. exact Hx.
Qed.

(** The callback's list stands for the documents of the snapshot, one
    ticket per document, in the same order. *)
Lemma stored_tickets_of_snapshot (l : list (string * TicketDoc)) :
  map stored (tickets_of_snapshot l) = l.
Proof.
  unfold tickets_of_snapshot. rewrite map_map.
  induction l as [| [i d] rest IH]; [reflexivity |].
  cbn [map]. rewrite IH. reflexivity.
Qed.

(** Every delivery of a listener whose query asks for creation time
    descending: the documents that match the query, all of them, newest
    first. *)
Lemma delivered_spec (q : Query) (coll : list (string * TicketDoc)) :
  orderBy q = Some ("createdAt", desc) ->
  newest_first (delivered q coll)
  /\ Permutation (map stored (delivered q coll)) (filter (matches q) coll).
Proof.
  intro Ho. unfold delivered, snapshot_docs. rewrite Ho. split.
  - apply tickets_of_snapshot_sorted, order_docs_newer.
    + exact createdAt_desc_newer.
    + exact createdAt_desc_not_newer.
  - rewrite stored_tickets_of_snapshot.
    apply Permutation_sym.
    rewrite <- (sortable_createdAt desc (filter (matches q) coll)) at 1.
    apply order_docs_perm.
Qed.

Lemma delivered_own (u : Identity) (coll : list (string * TicketDoc)) :
  Forall (fun t => clientId (data t) = uid u) (delivered (own_query u) coll)
  /\ newest_first (delivered (own_query u) coll)
  /\ Permutation (map stored (delivered (own_query u) coll))
       (filter (fun d => clientId (snd d) =? uid u)%string coll).
Proof.
  destruct (delivered_spec (own_query u) coll eq_refl) as [Hs Hp].
  split; [| split; [exact Hs | exact Hp]].
  apply Forall_forall. intros t Ht.
  apply (in_map stored) in Ht. apply (Permutation_in _ Hp) in Ht.
  apply filter_In in Ht as [_ Hm].
  unfold matches, own_query in Hm; simpl in Hm.
  apply String.eqb_eq in Hm. exact Hm.
Qed.

Lemma delivered_all (coll : list (string * TicketDoc)) :
  newest_first (delivered all_query coll)
  /\ Permutation (map stored (delivered all_query coll)) coll.
Proof.
  destruct (delivered_spec all_query coll eq_refl) as [Hs Hp].
  split; [exact Hs |].
  eapply perm_trans; [exact Hp |].
  replace (filter (matches all_query) coll) with coll; [apply Permutation_refl |].
  clear. induction coll as [| d rest IH]; simpl; [| rewrite <- IH]; reflexivity.
Qed.

Example delivered_three_tickets :
  map id (delivered (own_query alice) three_tickets) = ["ticket2"; "ticket0"]
  /\ map id (delivered all_query three_tickets) = ["ticket2"; "ticket1"; "ticket0"].
Proof. split; vm_compute; reflexivity. Qed.

(** The order is the one the query asks for: the same tickets asked for
    oldest first, or with no order at all (by document id), come the
    other way round. *)
Example delivered_as_asked :
  map id (delivered {| where_clientId := None; orderBy := Some ("createdAt", asc) |}
            three_tickets)
  = ["ticket0"; "ticket1"; "ticket2"]
  /\ map id (delivered {| where_clientId := None; orderBy := None |} three_tickets)
     = ["ticket0"; "ticket1"; "ticket2"]
  /\ delivered {| where_clientId := None; orderBy := Some ("priority", desc) |}
       three_tickets = [].
Proof. repeat split; vm_compute; reflexivity. Qed.

Lemma getMyTickets_subscribed (onError : option (Error -> prog unit))
    (w w' : World) (h : nat) :
  exec (getMyTickets onError) w = (inr h, w') ->
  exists u, session w = Some u /\ listeners w' = listeners w ++ [own_query u].
Proof.
  unfold getMyTickets. rewrite exec_bind, exec_await.
  change (perform authInstance_currentUser w) with (@inr Error _ (session w), w).
  cbv beta iota. destruct (session w) as [u |].
  - rewrite exec_await. cbn [perform]. intro E. inversion E; subst.
    exists u. split; reflexivity.
  - rewrite exec_bind.
    destruct (exec match onError with
                   | Some handler => handler _
                   | None => Ret tt
                   end w) as [[e | []] w1]; simpl; discriminate.
Qed.

(** C6.  A call of [getMyTickets] that returns has registered a listener
    whose query is bound to the uid of the user signed in at that moment
    and asks for creation time descending; whatever the collection
    becomes, the list this listener hands to the callback holds only
    tickets whose clientId is that uid, newest first, and is the full
    matching set: its tickets, taken as id and fields, are exactly the
    documents of the collection whose clientId is that uid, each once.
    [getAllTickets] registers a listener that asks for the same order and
    whose deliveries are, newest first, exactly the documents of the whole
    collection, each once. *)
Theorem listeners_deliver_own_or_all_newest_first (w : World) :
  (forall onError h w',
     exec (getMyTickets onError) w = (inr h, w') ->
     exists u,
       session w = Some u
       /\ listeners w' = listeners w ++ [own_query u]
       /\ forall coll,
            Forall (fun t => clientId (data t) = uid u) (delivered (own_query u) coll)
            /\ newest_first (delivered (own_query u) coll)
            /\ Permutation (map stored (delivered (own_query u) coll))
                 (filter (fun d => clientId (snd d) =? uid u)%string coll))
  /\ (exists h w',
        exec getAllTickets w = (inr h, w')
        /\ listeners w' = listeners w ++ [all_query]
        /\ forall coll,
             newest_first (delivered all_query coll)
             /\ Permutation (map stored (delivered all_query coll)) coll).
Proof.
  split.
  - intros onError h w' E.
    apply getMyTickets_subscribed in E as [u [Hs Hl]].
    exists u. split; [exact Hs | split; [exact Hl |]].
    intro coll. apply delivered_own.
  - eexists. eexists. split; [| split].
    + unfold getAllTickets. rewrite exec_await. cbn [perform]. reflexivity.
    + reflexivity.
    + apply delivered_all.
Qed.

Lemma listeners_deliver_witness :
  exists u,
    session alice_signed_in = Some u
    /\ listeners (snd (exec (getMyTickets None) alice_signed_in))
       = listeners alice_signed_in ++ [own_query u]
    /\ forall coll,
         Forall (fun t => clientId (data t) = uid u) (delivered (own_query u) coll)
         /\ newest_first (delivered (own_query u) coll)
         /\ Permutation (map stored (delivered (own_query u) coll))
              (filter (fun d => clientId (snd d) =? uid u)%string coll).
Proof.
  apply (proj1 (listeners_deliver_own_or_all_newest_first alice_signed_in) None 0).
  reflexivity.
Defined.

(* ================================================================== *)
(** ** signIn: the errors *)

Lemma code_is_eq (e : Error) (c : string) : code_is e c = true <-> code e = Some c.
Proof.
  unfold code_is. destruct (code e) as [c' |]; split; intro H; try discriminate.
  - apply String.eqb_eq in H. subst; reflexivity.
  - inversion H. apply String.eqb_refl.
Qed.

Lemma signIn_exec (e p : string) (w : World) :
  exec (signIn e p) w =
  if negb (truthy e) || negb (truthy p)
  then (inl (new_Error "Email and password are required"), w)
  else
    match perform (signInWithEmailAndPassword e p) w with
    | (inl err, w1) => exec (signIn_catch err) w1
    | (inr u, w1) => (inr u, w1)
    end.
Proof.
  unfold signIn. rewrite exec_try_catch, exec_bind.
  destruct (negb (truthy e) || negb (truthy p)); [reflexivity |].
  cbn [throw_if exec]. rewrite exec_await.
  destruct (perform _ w) as [[err | u] w1]; reflexivity.
Qed.

(** Whatever is caught, what is thrown is a fresh error with a message. *)
Lemma signIn_catch_fresh {A} (err : Error) :
  exists m, @signIn_catch A err = Throw (new_Error m) /\ m <> "".
Proof.
  unfold signIn_catch.
  destruct (code_is err "auth/user-not-found");
    [eexists; split; [reflexivity | discriminate] |].
  destruct (code_is err "auth/wrong-password");
    [eexists; split; [reflexivity | discriminate] |].
  destruct (code_is err "auth/invalid-email");
    [eexists; split; [reflexivity | discriminate] |].
  eexists; split; [reflexivity |]. apply or_else_nonempty. discriminate.
Qed.

Lemma set_faults_nil {R} (o : op R) (w : World) :
  faults w = [] -> set_faults (record_call o w) [] = record_call o w.
Proof. destruct w; simpl; intros ->; reflexivity. Qed.

Lemma perform_signIn (e p : string) (w : World) :
  served w ->
  perform (signInWithEmailAndPassword e p) w =
  let w1 := after_call (signInWithEmailAndPassword e p) w in
  if negb (has_at e) then
    (inl (auth_error "auth/invalid-email" "The email address is badly formatted."), w1)
  else
    match find_account e (accounts w) with
    | None =>
        (inl (auth_error "auth/user-not-found"
                "There is no user record corresponding to this identifier."), w1)
    | Some a =>
        if a_password a =? p then
          (inr {| uid := a_uid a; email := a_email a |},
           set_session w1 (Some {| uid := a_uid a; email := a_email a |}))
        else (inl (auth_error "auth/wrong-password" "The password is invalid."), w1)
    end.
Proof.
  intro H. cbn [perform]. rewrite remote_eq. unfold after_call. cbv zeta.
  unfold served, fault_at in H.
  destruct (faults w) as [| [| err |] rest] eqn:F; simpl in H;
    try (exfalso; apply (H err); reflexivity);
    cbn [accounts record_call set_log set_faults tl];
    try reflexivity.
  rewrite (set_faults_nil _ _ F). reflexivity.
Qed.

Lemma signIn_catch_by_code {A} (err : Error) :
  (code err = Some "auth/user-not-found" ->
   @signIn_catch A err = Throw (new_Error Errors.UserNotFound))
  /\ (code err = Some "auth/wrong-password" ->
      @signIn_catch A err = Throw (new_Error Errors.InvalidCredentials))
  /\ (code err = Some "auth/invalid-email" ->
      @signIn_catch A err = Throw (new_Error Errors.InvalidEmail))
  /\ ((forall c, In c known_auth_codes -> code err <> Some c) ->
      @signIn_catch A err = Throw (new_Error (or_else (message err) "Failed to sign in"))).
Proof.
  unfold signIn_catch, code_is.
  repeat split; try (intros ->; reflexivity).
  intro H.
  destruct (code err) as [c |]; [| reflexivity].
  destruct (c =? "auth/user-not-found") eqn:E1.
  { apply String.eqb_eq in E1. exfalso. apply (H c); [| reflexivity].
    subst; simpl; auto. }
  destruct (c =? "auth/wrong-password") eqn:E2.
  { apply String.eqb_eq in E2. exfalso. apply (H c); [| reflexivity].
    subst; simpl; auto. }
  destruct (c =? "auth/invalid-email") eqn:E3.
  { apply String.eqb_eq in E3. exfalso. apply (H c); [| reflexivity].
    subst; simpl; auto. }
  reflexivity.
Qed.

(** C9.  [signIn] tells the failures of the auth service apart by their
    code: wrong-password gives the message of InvalidCredentials,
    user-not-found the one of UserNotFound, invalid-email the one of
    InvalidEmail, and any other rejection a plain error with the
    service's message, or "Failed to sign in" when it has none.  Against
    the service: a wrong password for an account that exists gives
    InvalidCredentials, an email without account UserNotFound, a
    malformed email InvalidEmail.  In every case what [signIn] throws is a
    fresh error, with no code and with a message. *)
Theorem signIn_discriminates_by_code (e p : string) (w : World) :
  (e <> "" -> p <> "" ->
   forall err w1,
     perform (signInWithEmailAndPassword e p) w = (inl err, w1) ->
     (code err = Some "auth/wrong-password" ->
      exec (signIn e p) w = (inl (new_Error Errors.InvalidCredentials), w1))
     /\ (code err = Some "auth/user-not-found" ->
         exec (signIn e p) w = (inl (new_Error Errors.UserNotFound), w1))
     /\ (code err = Some "auth/invalid-email" ->
         exec (signIn e p) w = (inl (new_Error Errors.InvalidEmail), w1))
     /\ ((forall c, In c known_auth_codes -> code err <> Some c) ->
         exec (signIn e p) w
         = (inl (new_Error (or_else (message err) "Failed to sign in")), w1)))
  /\ (e <> "" -> p <> "" -> served w ->
      (forall a, has_at e = true -> find_account e (accounts w) = Some a ->
                 a_password a <> p ->
                 fst (exec (signIn e p) w) = inl (new_Error Errors.InvalidCredentials))
      /\ (has_at e = true -> find_account e (accounts w) = None ->
          fst (exec (signIn e p) w) = inl (new_Error Errors.UserNotFound))
      /\ (has_at e = false ->
          fst (exec (signIn e p) w) = inl (new_Error Errors.InvalidEmail)))
  /\ (forall err w', exec (signIn e p) w = (inl err, w') ->
      code err = None /\ message err <> "").
Proof.
  split; [| split].
  - intros He Hp err w1 E. apply truthy_true in He, Hp.
    rewrite signIn_exec, He, Hp, E. cbn [negb orb].
    destruct (@signIn_catch_by_code Identity err) as [H1 [H2 [H3 H4]]].
    repeat split; intro H.
    + rewrite (H2 H); reflexivity.
    + rewrite (H1 H); reflexivity.
    + rewrite (H3 H); reflexivity.
    + rewrite (H4 H); reflexivity.
  - intros He Hp Hs. apply truthy_true in He, Hp.
    rewrite signIn_exec, He, Hp, (perform_signIn _ _ _ Hs). cbn [negb orb]. cbv zeta.
    repeat split.
    + intros a Ha Hf Hpw. rewrite Ha, Hf. cbn [negb].
      apply String.eqb_neq in Hpw. rewrite Hpw. reflexivity.
    + intros Ha Hf. rewrite Ha, Hf. reflexivity.
    + intros Ha. rewrite Ha. reflexivity.
  - intros err w' E. rewrite signIn_exec in E.
    destruct (negb (truthy e) || negb (truthy p)).
    { inversion E; subst. split; [reflexivity | discriminate]. }
    destruct (perform (signInWithEmailAndPassword e p) w) as [[serr | u] w1];
      [| discriminate].
    destruct (@signIn_catch_fresh Identity serr) as [m [Hm Hne]].
    rewrite Hm in E. inversion E; subst. split; [reflexivity | exact Hne].
Qed.

(** Alice's account, a wrong password; then an email nobody registered. *)
Lemma signIn_discriminates_witness :
  fst (exec (signIn "alice@x.com" "wrong") alice_signed_in)
  = inl (new_Error Errors.InvalidCredentials)
  /\ fst (exec (signIn "x@x.com" "wrong") alice_signed_in)
     = inl (new_Error Errors.UserNotFound).
Proof.
  assert (S : served alice_signed_in) by (intros e; discriminate).
  split.
  - destruct (signIn_discriminates_by_code "alice@x.com" "wrong" alice_signed_in)
      as [_ [H _]].
    destruct H as [H _]; [discriminate | discriminate | exact S |].
    apply (H (mkAccount "user0" "alice@x.com" "secret1"));
      [reflexivity | reflexivity | discriminate].
  - destruct (signIn_discriminates_by_code "x@x.com" "wrong" alice_signed_in)
      as [_ [H _]].
    destruct H as [_ [H _]]; [discriminate | discriminate | exact S |].
    apply H; reflexivity.
Defined.

(* ================================================================== *)
(** ** The auth listener of AppNavigator *)

Lemma perform_firebaseSignOut (w : World) :
  perform firebaseSignOut w =
  match faults w with
  | Rejects e :: _ => (inl e, after_call firebaseSignOut w)
  | _ => (inr tt, set_session (after_call firebaseSignOut w) None)
  end.
Proof.
  cbn [perform]. rewrite remote_eq. unfold after_call.
  destruct (faults w) as [| [| e |] rest] eqn:F; try reflexivity.
  rewrite (set_faults_nil _ _ F). reflexivity.
Qed.

Lemma signOut_exec (w : World) :
  exec signOut w =
  match faults w with
  | Rejects e :: _ => (inl (new_Error Errors.SignOutError), after_call firebaseSignOut w)
  | _ => (inr tt, set_session (after_call firebaseSignOut w) None)
  end.
Proof.
  unfold signOut. rewrite exec_try_catch, exec_await, perform_firebaseSignOut.
  destruct (faults w) as [| [| e |] rest]; reflexivity.
Qed.

Lemma authListener_exec_none (w : World) :
  exec (authListener None) w = (inr tt, set_nav w (mkNav None None None false)).
Proof. reflexivity. Qed.

Lemma authListener_exec (au : Identity) (w : World) :
  exec (authListener (Some au)) w =
  match exec (getUserRole (uid au) default_retries) w with
  | (inr role, w1) => (inr tt, set_nav w1 (mkNav (Some au) (Some role) None false))
  | (inl e, w1) =>
      let s := with_error (nav w1) (message e) in
      match exec signOut (set_nav w1 s) with
      | (inr _, w2) => (inr tt, set_nav w2 (mkNav None None (Some (message e)) false))
      | (inl e', w2) => (inl e', set_nav w2 (mkNav (user s) (userRole s) (error s) false))
      end
  end.
Proof.
  unfold authListener.
  rewrite exec_try_finally, exec_try_catch, exec_bind.
  destruct (exec (getUserRole (uid au) default_retries) w) as [[e | role] w1].
  - rewrite exec_bind, exec_await. cbn [perform]. rewrite exec_bind. cbv zeta.
    unfold with_error. rewrite signOut_exec.
    cbn [faults set_nav].
    destruct (faults w1) as [| [| e' |] rest]; reflexivity.
  - reflexivity.
Qed.

(** A role resolution touches neither the navigator, nor the directory,
    nor the session. *)
Lemma getUserRole_frame (userId : string) (retries : nat) (w : World) :
  nav (snd (exec (getUserRole userId retries) w)) = nav w
  /\ users (snd (exec (getUserRole userId retries) w)) = users w
  /\ session (snd (exec (getUserRole userId retries) w)) = session w.
Proof.
  destruct userId as [| c s].
  { rewrite getUserRole_no_id. repeat split. }
  assert (H : String c s <> "") by discriminate.
  revert w. induction retries as [| n IH]; intro w;
    rewrite (getUserRole_exec _ _ _ H); cbv zeta;
    destruct (read_user (String c s) w) as [e | [userData |]];
    try solve [try destruct (truthy (field (u_role userData))); repeat split].
  destruct (IH (after_delay 500 (after_call (getDoc_users (String c s)) w)))
    as [E1 [E2 E3]].
  rewrite E1, E2, E3. repeat split.
Qed.

Lemma read_user_found (userId : string) (w : World) (userData : UserDoc) :
  read_user userId w = inr (Some userData) -> lookup userId (users w) = Some userData.
Proof.
  unfold read_user. destruct (faults w) as [| [| e |] rest]; intro H;
    inversion H; reflexivity.
Qed.

(** The role it returns is the non-empty role of the stored profile. *)
Lemma getUserRole_returns_stored (userId : string) (retries : nat) (w w1 : World)
    (role : string) :
  exec (getUserRole userId retries) w = (inr role, w1) ->
  exists userData,
    lookup userId (users w) = Some userData
    /\ field (u_role userData) = role
    /\ role <> "".
Proof.
  destruct userId as [| c s].
  { rewrite getUserRole_no_id. discriminate. }
  assert (H : String c s <> "") by discriminate.
  revert w. induction retries as [| n IH]; intro w;
    rewrite (getUserRole_exec _ _ _ H); cbv zeta;
    destruct (read_user (String c s) w) as [e | [userData |]] eqn:R;
    try discriminate.
  - destruct (truthy (field (u_role userData))) eqn:T; [| discriminate].
    intro E; inversion E; subst. exists userData.
    repeat split; [apply read_user_found; exact R | apply truthy_true; exact T].
  - destruct (truthy (field (u_role userData))) eqn:T; [| discriminate].
    intro E; inversion E; subst. exists userData.
    repeat split; [apply read_user_found; exact R | apply truthy_true; exact T].
  - intro E. apply IH in E. exact E.
Qed.

(** C7.  What the listener does once the role resolution has failed for
    the identity of a session change: it records the error, calls the
    sign-out and nothing else, and ends with [loading] off.  When the
    sign-out is not rejected the user and the role are both cleared, the
    session is over and the navigator shows the Auth screens, as the claim
    says.  When the sign-out is rejected, the two statements that clear the
    user and the role, which come after [await signOut()], are skipped:
    the listener throws "Failed to sign out", the session is as live as it
    was, and the navigator keeps the user and the role it held before the
    run. *)
Theorem role_failure_clears_only_when_sign_out_succeeds
    (au : Identity) (w w1 : World) (e : Error) :
  exec (getUserRole (uid au) default_retries) w = (inl e, w1) ->
  let out := exec (authListener (Some au)) w in
  log (snd out) = log w1 ++ [Called firebaseSignOut]
  /\ error (nav (snd out)) = Some (message e)
  /\ loading (nav (snd out)) = false
  /\ (served w1 ->
      fst out = inr tt
      /\ nav (snd out) = mkNav None None (Some (message e)) false
      /\ session (snd out) = None
      /\ AppNavigator (nav (snd out)) = Some [Auth])
  /\ (forall e', fault_at 0 w1 = Rejects e' ->
      fst out = inl (new_Error Errors.SignOutError)
      /\ user (nav (snd out)) = user (nav w)
      /\ userRole (nav (snd out)) = userRole (nav w)
      /\ session (snd out) = session w).
Proof.
  intros E out. subst out.
  pose proof (getUserRole_frame (uid au) default_retries w) as [Hn [_ Hs]].
  rewrite E in Hn, Hs; cbn [snd] in Hn, Hs.
  rewrite authListener_exec, E. cbv zeta.
  rewrite signOut_exec. cbn [faults set_nav]. unfold served, fault_at, with_error.
  destruct (faults w1) as [| [| e0 |] rest] eqn:F;
    cbn [fst snd nav log error loading user userRole
         session set_nav set_session after_call set_faults record_call set_log nth];
    (split; [reflexivity | split; [reflexivity | split; [reflexivity | split]]]).
  all: try (intros _; repeat split; reflexivity).
  all: try (intros e' He'; discriminate He').
  - intro H. exfalso. apply (H e0). reflexivity.
  - intros e' _. rewrite Hn, Hs. repeat split; reflexivity.
Qed.

(** Alice is routed as a client; the listener runs for her again while
    the network is down: the read of her profile and the sign-out are both
    rejected, and the navigator still holds Alice and her role and shows
    the client screens, her session live.  The same failures when the
    application starts with her session restored leave the session live
    behind the Auth screens.  Dave, who has no profile, is signed out and
    sent to the Auth screens when the sign-out is served. *)
Lemma role_failure_sign_out_rejected_witness :
  (fst (exec (authListener (Some alice)) sign_out_rejected)
   = inl (new_Error Errors.SignOutError)
   /\ user (nav (snd (exec (authListener (Some alice)) sign_out_rejected)))
      = Some alice
   /\ userRole (nav (snd (exec (authListener (Some alice)) sign_out_rejected)))
      = Some "client"
   /\ session (snd (exec (authListener (Some alice)) sign_out_rejected))
      = Some alice
   /\ AppNavigator (nav (snd (exec (authListener (Some alice)) sign_out_rejected)))
      = Some [ClientApp])
  /\ (fst (exec (authListener (Some alice)) alice_offline)
      = inl (new_Error Errors.SignOutError)
      /\ session (snd (exec (authListener (Some alice)) alice_offline)) = Some alice
      /\ AppNavigator (nav (snd (exec (authListener (Some alice)) alice_offline)))
         = Some [Auth])
  /\ (nav (snd (exec (authListener (Some dave)) alice_routed))
      = mkNav None None (Some Errors.ProfileNotFound) false
      /\ session (snd (exec (authListener (Some dave)) alice_routed)) = None).
Proof.
  split; [| split].
  - assert (E : exec (getUserRole (uid alice) default_retries) sign_out_rejected
                = (inl (new_Error (message network_error)),
                   snd (exec (getUserRole (uid alice) default_retries) sign_out_rejected)))
      by (vm_compute; reflexivity).
    destruct (role_failure_clears_only_when_sign_out_succeeds alice sign_out_rejected
                _ _ E) as [_ [_ [_ [_ H]]]].
    destruct (H network_error) as [H1 [H2 [H3 H4]]]; [vm_compute; reflexivity |].
    split; [exact H1 | split; [exact H2 | split; [exact H3 | split; [exact H4 |]]]].
    vm_compute; reflexivity.
  - assert (E : exec (getUserRole (uid alice) default_retries) alice_offline
                = (inl (new_Error (message network_error)),
                   snd (exec (getUserRole (uid alice) default_retries) alice_offline)))
      by (vm_compute; reflexivity).
    destruct (role_failure_clears_only_when_sign_out_succeeds alice alice_offline
                _ _ E) as [_ [_ [_ [_ H]]]].
    destruct (H network_error) as [H1 [_ [_ H4]]]; [vm_compute; reflexivity |].
    split; [exact H1 | split; [exact H4 |]].
    vm_compute; reflexivity.
  - assert (E : exec (getUserRole (uid dave) default_retries) alice_routed
                = (inl (new_Error Errors.ProfileNotFound),
                   snd (exec (getUserRole (uid dave) default_retries) alice_routed)))
      by (vm_compute; reflexivity).
    destruct (role_failure_clears_only_when_sign_out_succeeds dave alice_routed
                _ _ E) as [_ [_ [_ [H _]]]].
    destruct H as [_ [H1 [H2 _]]].
    + intros e'. vm_compute. discriminate.
    + split; [exact H1 | exact H2].
Defined.

(** C10.  When the resolution returns a role that is neither client nor
    admin, the listener keeps the user and that role and ends without
    error; the navigator then shows no screen at all (neither Auth, nor
    the client's, nor the admin's); nothing is called after the
    resolution, so there is no sign-out, and the session stays as it
    was. *)
Theorem unknown_role_leaves_empty_navigator
    (au : Identity) (role : string) (w w1 : World) :
  exec (getUserRole (uid au) default_retries) w = (inr role, w1) ->
  ~ In role ["client"; "admin"] ->
  let out := exec (authListener (Some au)) w in
  fst out = inr tt
  /\ nav (snd out) = mkNav (Some au) (Some role) None false
  /\ AppNavigator (nav (snd out)) = Some []
  /\ ~ routable (nav (snd out))
  /\ log (snd out) = log w1
  /\ session (snd out) = session w.
Proof.
  intros E Hr out. subst out. rewrite authListener_exec, E.
  cbn [fst snd nav set_nav log session].
  assert (H1 : (role =? "client") = false).
  { apply String.eqb_neq. intro; subst. apply Hr; left; reflexivity. }
  assert (H2 : (role =? "admin") = false).
  { apply String.eqb_neq. intro; subst. apply Hr; right; left; reflexivity. }
  assert (HA : AppNavigator (mkNav (Some au) (Some role) None false) = Some []).
  { unfold AppNavigator; simpl. rewrite H1, H2. reflexivity. }
  pose proof (getUserRole_frame (uid au) default_retries w) as [_ [_ Hs]].
  rewrite E in Hs; simpl in Hs.
  repeat split; auto.
  unfold routable. rewrite HA. intros [H | [H | H]]; discriminate.
Qed.

(** Carol's profile says manager. *)
Lemma unknown_role_witness :
  fst (exec (getUserRole (uid carol) default_retries) carol_is_manager) = inr "manager"
  /\ nav (snd (exec (authListener (Some carol)) carol_is_manager))
     = mkNav (Some carol) (Some "manager") None false
  /\ AppNavigator (nav (snd (exec (authListener (Some carol)) carol_is_manager)))
     = Some []
  /\ session (snd (exec (authListener (Some carol)) carol_is_manager))
     = session carol_is_manager.
Proof.
  assert (E : exec (getUserRole (uid carol) default_retries) carol_is_manager
              = (inr "manager",
                 snd (exec (getUserRole (uid carol) default_retries) carol_is_manager)))
    by (vm_compute; reflexivity).
  split; [rewrite E; reflexivity |].
  destruct (unknown_role_leaves_empty_navigator carol "manager" carol_is_manager
              (snd (exec (getUserRole (uid carol) default_retries) carol_is_manager))
              E)
    as [_ [H1 [H2 [_ [_ H3]]]]].
  - simpl. intros [H | [H | []]]; discriminate.
  - split; [exact H1 | split; [exact H2 | exact H3]].
Defined.

(* ================================================================== *)
(** ** signUp: what a successful registration leaves *)

Lemma signUp_returns_valid (e p n r : string) (w w' : World) (u : Identity) :
  exec (signUp e p n r) w = (inr u, w') -> ~ signUp_refuses e p n r.
Proof.
  intros E H. apply signUp_refuses_cases in H. unfold signUp in E.
  destruct (negb (truthy e) || negb (truthy p) || negb (truthy n)
            || negb (truthy r)); [discriminate |].
  destruct (Nat.ltb (String.length p) 6); [discriminate |].
  destruct (negb (includes ["client"; "admin"] r)); [discriminate |].
  destruct H as [H | [H | H]]; discriminate.
Qed.

Lemma createUser_identity (e p : string) (w w1 : World) (u : Identity) :
  perform (createUserWithEmailAndPassword e p) w = (inr u, w1) ->
  u = next_identity e w
  /\ has_at e = true
  /\ find_account e (accounts w) = None
  /\ clock w1 = clock w
  /\ tickets w1 = tickets w
  /\ faults w1 = tl (faults w).
Proof.
  cbn [perform]. rewrite remote_eq. intro H.
  destruct (faults w) as [| [| err |] rest] eqn:F; try discriminate;
    cbn [accounts record_call set_log set_faults] in H;
    destruct (has_at e); cbn [negb] in H; try discriminate;
    destruct (Nat.ltb (String.length p) 6); try discriminate;
    destruct (find_account e (accounts w)); try discriminate;
    inversion H; subst; repeat split; simpl; rewrite F; reflexivity.
Qed.

(** What a call of [signUp] that returns has done. *)
Lemma signUp_returns_facts
    (e p n r : string) (w w' : World) (u : Identity) :
  exec (signUp e p n r) w = (inr u, w') ->
  u = next_identity e w
  /\ In r ["client"; "admin"]
  /\ session w' = Some u
  /\ In (mkAccount (uid u) e p) (accounts w')
  /\ lookup (uid u) (users w')
     = Some {| u_email := Some e; u_name := Some n; u_role := Some r;
               u_createdAt := Some (timestamp (clock w)) |}
  /\ tickets w' = tickets w.
Proof.
  intro E. pose proof (signUp_returns_valid _ _ _ _ _ _ _ E) as Hv.
  assert (Hr : In r ["client"; "admin"]).
  { destruct (includes ["client"; "admin"] r) eqn:I.
    - apply includes_In; exact I.
    - exfalso. apply Hv. do 5 right. apply includes_not_In; exact I. }
  rewrite (signUp_exec _ _ _ _ _ Hv) in E.
  destruct (perform (createUserWithEmailAndPassword e p) w) as [[err | u0] w1] eqn:Hc;
    [discriminate |].
  pose proof (createUser_created _ _ _ _ _ Hc) as [Ha [Hs [Hu _]]].
  pose proof (createUser_identity _ _ _ _ _ Hc) as [Hid [_ [_ [Hk [Ht _]]]]].
  rewrite perform_setDoc_users in E.
  assert (Hin : In (mkAccount (uid u0) e p) (accounts w1)).
  { rewrite Ha. apply in_or_app; right; left; reflexivity. }
  destruct (faults w1) as [| f1 rest1] eqn:F1; [| destruct f1 as [| err1 |]];
    cbv beta iota in E; rewrite ?perform_getDoc_users in E;
    unfold read_user, after_call in E;
    cbn [faults set_clock set_users set_faults record_call set_log tl users] in E;
    rewrite ?F1 in E; cbn [tl] in E;
    try (destruct rest1 as [| [| err2 |] rest2]);
    rewrite ?lookup_put_same in E; try discriminate;
    inversion E; subst;
    cbn [session accounts users tickets set_clock set_users set_faults
         record_call set_log];
    rewrite lookup_put_same, Hk;
    repeat split; auto.
Qed.

(** X1.  A call of [signUp] that returns has been given an input that
    passes its checks, returns the identity the auth service made for the
    email, leaves that identity signed in and its account registered, and
    has put under its uid a profile with exactly the email, name and role
    given (the role being client or admin), stamped by the store; the
    tickets are not touched. *)
Theorem signUp_returns_with_profile_written
    (e p n r : string) (w w' : World) (u : Identity) :
  exec (signUp e p n r) w = (inr u, w') ->
  u = next_identity e w
  /\ In r ["client"; "admin"]
  /\ session w' = Some u
  /\ In (mkAccount (uid u) e p) (accounts w')
  /\ lookup (uid u) (users w')
     = Some {| u_email := Some e; u_name := Some n; u_role := Some r;
               u_createdAt := Some (timestamp (clock w)) |}
  /\ tickets w' = tickets w.
Proof. apply signUp_returns_facts. Qed.

(** A fresh email, a password of 6 characters and the client role, the
    service without fault. *)
Lemma signUp_returns_with_profile_written_witness :
  session alice_signed_in = Some alice
  /\ lookup "user0" (users alice_signed_in)
     = Some {| u_email := Some "alice@x.com"; u_name := Some "Alice";
               u_role := Some "client"; u_createdAt := Some (timestamp 0) |}.
Proof.
  assert (E : exec (signUp "alice@x.com" "secret1" "Alice" "client") empty
              = (inr alice, alice_signed_in)) by (vm_compute; reflexivity).
  destruct (signUp_returns_with_profile_written _ _ _ _ _ _ _ E)
    as [_ [_ [Hs [_ [Hl _]]]]].
  split; [exact Hs | exact Hl].
Defined.

Lemma perform_createUser_served (e p : string) (w : World) :
  not_rejected 0 w ->
  has_at e = true ->
  Nat.ltb (String.length p) 6 = false ->
  find_account e (accounts w) = None ->
  perform (createUserWithEmailAndPassword e p) w
  = (inr (next_identity e w),
     set_session
       (set_accounts (after_call (createUserWithEmailAndPassword e p) w)
          (accounts w ++ [mkAccount (uid (next_identity e w)) e p]))
       (Some (next_identity e w))).
Proof.
  intros N Ha Hl Hf. cbn [perform]. rewrite remote_eq.
  unfold not_rejected, fault_at in N. unfold after_call.
  destruct (faults w) as [| [| e0 |] rest] eqn:F; cbn [nth] in N;
    try (exfalso; apply (N e0); reflexivity);
    cbn [accounts record_call set_log set_faults tl];
    rewrite Ha, Hl, Hf; cbn [negb]; try reflexivity.
  rewrite (set_faults_nil _ _ F). reflexivity.
Qed.

(** X2.  With an input that passes the checks, an email that is well
    formed and not registered yet, and a service that rejects none of
    the three calls and shows the profile at the read-back, [signUp]
    returns the new identity. *)
Theorem signUp_succeeds_when_served (e p n r : string) (w : World) :
  ~ signUp_refuses e p n r ->
  has_at e = true ->
  find_account e (accounts w) = None ->
  not_rejected 0 w -> not_rejected 1 w -> fault_at 2 w = NoFault ->
  fst (exec (signUp e p n r) w) = inr (next_identity e w).
Proof.
  intros Hv Ha Hf N0 N1 N2. rewrite (signUp_exec _ _ _ _ _ Hv).
  assert (Hl : Nat.ltb (String.length p) 6 = false).
  { apply Nat.ltb_ge. unfold signUp_refuses in Hv. lia. }
  rewrite (perform_createUser_served _ _ _ N0 Ha Hl Hf).
  rewrite perform_setDoc_users.
  unfold not_rejected, fault_at in N1, N2. unfold after_call.
  cbn [faults set_session set_accounts set_faults record_call set_log].
  destruct (faults w) as [| f0 [| f1 [| f2 rest]]]; cbn [nth tl] in *;
    try (destruct f1 as [| e1 |]; [| exfalso; apply (N1 e1); reflexivity |]);
    subst; cbv beta iota;
    rewrite perform_getDoc_users; unfold read_user, after_call;
    cbn [faults set_clock set_users set_session set_accounts
         set_faults record_call set_log tl users];
    rewrite lookup_put_same; reflexivity.
Qed.

Lemma signUp_accepts_alice : ~ signUp_refuses "alice@x.com" "secret1" "Alice" "client".
Proof.
  unfold signUp_refuses.
  intros [H | [H | [H | [H | [H | H]]]]]; try discriminate.
  - simpl in H. lia.
  - apply H. left; reflexivity.
Qed.

Lemma signUp_succeeds_when_served_witness :
  fst (exec (signUp "alice@x.com" "secret1" "Alice" "client") empty) = inr alice.
Proof.
  apply (signUp_succeeds_when_served "alice@x.com" "secret1" "Alice" "client" empty
           signUp_accepts_alice); try reflexivity; intros e; discriminate.
Defined.

Lemma user_id_nonempty (k : nat) : user_id k <> "".
Proof. unfold user_id. simpl. discriminate. Qed.

(** X3.  Registration, then resolution: once [signUp] has returned an
    identity, [getUserRole] for its uid returns the role given at
    registration as soon as a read is served, after up to 3 reads that
    were stale. *)
Theorem register_then_resolve_role
    (e p n r : string) (w w' : World) (u : Identity) (k : nat) :
  exec (signUp e p n r) w = (inr u, w') ->
  k <= 3 ->
  (forall i, i < k -> fault_at i w' = Stale) ->
  fault_at k w' = NoFault ->
  fst (exec (getUserRole (uid u) default_retries) w') = inr r.
Proof.
  intros E Hk Hs Hf.
  pose proof (signUp_returns_valid _ _ _ _ _ _ _ E) as Hv.
  assert (Hr : r <> "") by (unfold signUp_refuses in Hv; tauto).
  destruct (signUp_returns_facts _ _ _ _ _ _ _ E) as [Hid [_ [_ [_ [Hl _]]]]].
  assert (Hu : uid u <> "") by (rewrite Hid; apply user_id_nonempty).
  destruct (getUserRole_visible_after (uid u) k default_retries w' _ Hu Hk Hs Hf Hl)
    as [R _].
  rewrite R. simpl. apply truthy_true in Hr. rewrite Hr. reflexivity.
Qed.

(** Alice has registered; two stale reads, then her role. *)
Lemma register_then_resolve_role_witness :
  fst (exec (getUserRole "user0" default_retries)
            (set_faults alice_signed_in [Stale; Stale])) = inr "client".
Proof.
  assert (E : exec (signUp "alice@x.com" "secret1" "Alice" "client")
                   (set_faults empty [NoFault; NoFault; NoFault; Stale; Stale])
              = (inr alice, set_faults alice_signed_in [Stale; Stale]))
    by (vm_compute; reflexivity).
  apply (register_then_resolve_role _ _ _ _ _ _ alice 2 E).
  - lia.
  - intros i Hi. destruct i as [| [| i]]; [reflexivity | reflexivity | lia].
  - reflexivity.
Defined.

(* ================================================================== *)
(** ** signIn and signOut *)

(** X4.  [signIn] with an empty email or an empty password throws "Email
    and password are required" at once: it calls nothing, whatever the
    state of the service. *)
Theorem signIn_requires_email_and_password (e p : string) :
  e = "" \/ p = "" ->
  signIn e p = Throw (new_Error "Email and password are required")
  /\ forall w, exec (signIn e p) w
               = (inl (new_Error "Email and password are required"), w).
Proof.
  intro H.
  assert (E : signIn e p = Throw (new_Error "Email and password are required")).
  { destruct H as [-> | ->]; [reflexivity | destruct e; reflexivity]. }
  split; [exact E | intro w; rewrite E; reflexivity].
Qed.

Lemma signIn_requires_witness :
  signIn "alice@x.com" "" = Throw (new_Error "Email and password are required")
  /\ forall w, exec (signIn "alice@x.com" "") w
               = (inl (new_Error "Email and password are required"), w).
Proof. apply signIn_requires_email_and_password. right; reflexivity. Defined.

(** What the auth service has checked when it returns an identity. *)
Lemma signIn_accepted (e p : string) (w w1 : World) (u : Identity) :
  perform (signInWithEmailAndPassword e p) w = (inr u, w1) ->
  exists a,
    find_account e (accounts w) = Some a
    /\ a_password a = p
    /\ u = {| uid := a_uid a; email := a_email a |}
    /\ w1 = set_session (after_call (signInWithEmailAndPassword e p) w) (Some u).
Proof.
  cbn [perform]. rewrite remote_eq. unfold after_call. intro H.
  destruct (faults w) as [| [| err |] rest] eqn:F; try discriminate;
    cbn [accounts record_call set_log set_faults tl] in *;
    destruct (has_at e); cbn [negb] in H; try discriminate;
    destruct (find_account e (accounts w)) as [a |]; try discriminate;
    destruct (a_password a =? p) eqn:P; try discriminate;
    apply String.eqb_eq in P; inversion H; subst;
    exists a; repeat split.
  rewrite (set_faults_nil _ _ F). reflexivity.
Qed.

(** X5.  A call of [signIn] that returns was given a non-empty email and
    password that are those of a registered account; it returns that
    account's identity and leaves it signed in; accounts, profiles and
    tickets are as before. *)
Theorem signIn_returns_the_account (e p : string) (w w' : World) (u : Identity) :
  exec (signIn e p) w = (inr u, w') ->
  e <> "" /\ p <> ""
  /\ (exists a, find_account e (accounts w) = Some a
                /\ a_password a = p
                /\ u = {| uid := a_uid a; email := a_email a |})
  /\ session w' = Some u
  /\ accounts w' = accounts w /\ users w' = users w /\ tickets w' = tickets w.
Proof.
  rewrite signIn_exec. intro E.
  destruct (truthy e) eqn:Te; [| discriminate].
  destruct (truthy p) eqn:Tp; [| discriminate].
  cbn [negb orb] in E.
  destruct (perform (signInWithEmailAndPassword e p) w) as [[err | u0] w1] eqn:P.
  - destruct (@signIn_catch_fresh Identity err) as [m [Hm _]].
    rewrite Hm in E. discriminate.
  - inversion E; subst. apply signIn_accepted in P as [a [Hf [Hp [Hu Hw]]]].
    split; [apply truthy_true; exact Te |].
    split; [apply truthy_true; exact Tp |].
    split; [exists a; repeat split; assumption |].
    rewrite Hw. repeat split.
Qed.

Lemma signIn_returns_the_account_witness :
  session (snd (exec (signIn "alice@x.com" "secret1") alice_signed_in)) = Some alice.
Proof.
  assert (E : exec (signIn "alice@x.com" "secret1") alice_signed_in
              = (inr alice, snd (exec (signIn "alice@x.com" "secret1") alice_signed_in)))
    by (vm_compute; reflexivity).
  destruct (signIn_returns_the_account _ _ _ _ _ E) as [_ [_ [_ [H _]]]].
  exact H.
Defined.

(** X6.  [signOut] ends the session when the service accepts, and
    otherwise throws "Failed to sign out" whatever the service's error
    was, leaving the session as it is; in both cases accounts, profiles,
    tickets and the navigator are untouched. *)
Theorem signOut_ends_session_or_reports (w : World) :
  (forall e, fault_at 0 w = Rejects e ->
     fst (exec signOut w) = inl (new_Error "Failed to sign out")
     /\ session (snd (exec signOut w)) = session w)
  /\ (not_rejected 0 w ->
      fst (exec signOut w) = inr tt /\ session (snd (exec signOut w)) = None)
  /\ accounts (snd (exec signOut w)) = accounts w
  /\ users (snd (exec signOut w)) = users w
  /\ tickets (snd (exec signOut w)) = tickets w
  /\ nav (snd (exec signOut w)) = nav w.
Proof.
  rewrite signOut_exec. unfold not_rejected, fault_at.
  destruct (faults w) as [| [| e0 |] rest]; cbn [nth];
    (split; [intros e H; try discriminate; split; reflexivity |]);
    (split; [intro H; try (exfalso; apply (H e0); reflexivity); split; reflexivity |]);
    repeat split.
Qed.

Lemma signOut_ends_session_witness :
  fst (exec signOut alice_signed_in) = inr tt
  /\ session (snd (exec signOut alice_signed_in)) = None.
Proof.
  apply (proj1 (proj2 (signOut_ends_session_or_reports alice_signed_in))).
  intros e. discriminate.
Defined.

(* ================================================================== *)
(** ** Errors are rethrown fresh *)

Lemma rethrown_fresh {A} (p : prog A) (d : string) (w w' : World) (err : Error) :
  d <> "" ->
  exec (try_catch p (fun e => Throw (new_Error (or_else (message e) d)))) w
  = (inl err, w') ->
  fresh_error err.
Proof.
  intros Hd. rewrite exec_try_catch.
  destruct (exec p w) as [[e | a] w1]; simpl; intro E; inversion E; subst.
  split; [reflexivity | apply or_else_nonempty; exact Hd].
Qed.

Lemma getUserRole_fresh (userId : string) (retries : nat) (w w' : World) (err : Error) :
  exec (getUserRole userId retries) w = (inl err, w') -> fresh_error err.
Proof.
  destruct userId as [| c s].
  { rewrite getUserRole_no_id. intro E; inversion E. split; [reflexivity | discriminate]. }
  assert (H : String c s <> "") by discriminate.
  revert w. induction retries as [| n IH]; intro w;
    rewrite (getUserRole_exec _ _ _ H); cbv zeta;
    destruct (read_user (String c s) w) as [e | [userData |]];
    try (destruct (truthy (field (u_role userData))));
    try (intro E;
         first [ discriminate
               | inversion E; split;
                 [ reflexivity
                 | first [simpl; discriminate | apply or_else_nonempty; discriminate] ] ]).
  apply IH.
Qed.

(** X7.  Whatever goes wrong in [signUp], [signOut], [getUserRole],
    [createTicket], [updateTicketStatus] or [getTicketById], what the
    function throws is an error made by [new Error] with a non-empty
    message: the service's error object, with its code, never gets out. *)
Theorem thrown_errors_are_fresh (w w' : World) (err : Error) :
  (forall e p n r, exec (signUp e p n r) w = (inl err, w') -> fresh_error err)
  /\ (exec signOut w = (inl err, w') -> fresh_error err)
  /\ (forall userId retries,
        exec (getUserRole userId retries) w = (inl err, w') -> fresh_error err)
  /\ (forall t d ty, exec (createTicket t d ty) w = (inl err, w') -> fresh_error err)
  /\ (forall i s, exec (updateTicketStatus i s) w = (inl err, w') -> fresh_error err)
  /\ (forall i, exec (getTicketById i) w = (inl err, w') -> fresh_error err).
Proof.
  split; [| split; [| split; [| split; [| split]]]].
  - intros e p n r. apply rethrown_fresh. discriminate.
  - unfold signOut. rewrite exec_try_catch.
    destruct (exec (await firebaseSignOut) w) as [[e | a] w1]; simpl;
      intro E; inversion E; split; [reflexivity | simpl; discriminate].
  - intros userId retries E. apply (getUserRole_fresh _ _ _ _ _ E).
  - intros t d ty. apply rethrown_fresh. discriminate.
  - intros i s. apply rethrown_fresh. discriminate.
  - intros i. apply rethrown_fresh. discriminate.
Qed.

(** The store refuses the write of a status: the error thrown has its
    message and no code. *)
Lemma thrown_errors_are_fresh_witness :
  fresh_error (new_Error "Missing or insufficient permissions.").
Proof.
  assert (E : exec (updateTicketStatus "ticket0" "closed")
                   (set_faults empty [Rejects permission_denied])
              = (inl (new_Error "Missing or insufficient permissions."),
                 snd (exec (updateTicketStatus "ticket0" "closed")
                           (set_faults empty [Rejects permission_denied]))))
    by (vm_compute; reflexivity).
  exact (proj1 (proj2 (proj2 (proj2 (proj2 (thrown_errors_are_fresh _ _ _)))))
           "ticket0" "closed" E).
Defined.

(* ================================================================== *)
(** ** getUserRole: what is not retried *)

(** X8.  [getUserRole] retries only a profile that is not there: when a
    read is rejected, after [k] reads that found nothing, it gives up at
    once with the message of the rejection (or "Failed to get user role"),
    however many retries are left; and without a user id it reads
    nothing at all. *)
Theorem getUserRole_gives_up_on_rejection
    (userId : string) (k retries : nat) (w : World) (e : Error) :
  (userId <> "" ->
   k <= retries ->
   (forall i, i < k -> sees_nothing userId w i) ->
   fault_at k w = Rejects e ->
   fst (exec (getUserRole userId retries) w)
   = inl (new_Error (or_else (message e) "Failed to get user role"))
   /\ log (snd (exec (getUserRole userId retries) w)) = log w ++ retry_trace userId k)
  /\ exec (getUserRole "" retries) w = (inl (new_Error "User ID is required"), w).
Proof.
  split; [| apply getUserRole_no_id].
  intro H. revert retries w. induction k as [| k IH]; intros n w Hk Hs Hf;
    rewrite (getUserRole_exec _ _ _ H); cbv zeta.
  - assert (R : read_user userId w = inl e).
    { unfold read_user, fault_at in *. destruct (faults w) as [| f rest];
        simpl in Hf; [discriminate | rewrite Hf; reflexivity]. }
    rewrite R. split; reflexivity.
  - assert (R : read_user userId w = inr None).
    { destruct (Hs 0 (Nat.lt_0_succ _)) as [S0 | [S0 L0]];
        [ apply read_user_stale; exact S0
        | rewrite (read_user_served _ _ S0), L0; reflexivity ]. }
    rewrite R. destruct n as [| n]; [lia |].
    destruct (IH n (after_delay 500 (after_call (getDoc_users userId) w))) as [E1 E2].
    + lia.
    + intros i Hi. unfold sees_nothing. rewrite fault_at_shift. apply Hs. lia.
    + rewrite fault_at_shift. exact Hf.
    + split; [exact E1 |]. rewrite E2. apply log_after_read_and_wait.
Qed.

Lemma getUserRole_gives_up_witness :
  fst (exec (getUserRole "user0" default_retries)
            (set_faults alice_signed_in [Stale; Rejects network_error]))
  = inl (new_Error "A network error has occurred.")
  /\ log (snd (exec (getUserRole "user0" default_retries)
                    (set_faults alice_signed_in [Stale; Rejects network_error])))
     = log (set_faults alice_signed_in [Stale; Rejects network_error])
       ++ retry_trace "user0" 1.
Proof.
  apply (proj1 (getUserRole_gives_up_on_rejection "user0" 1 default_retries
                  (set_faults alice_signed_in [Stale; Rejects network_error])
                  network_error)).
  - discriminate.
  - unfold default_retries; lia.
  - intros i Hi. left. destruct i; [reflexivity | lia].
  - reflexivity.
Defined.

(* ================================================================== *)
(** ** createTicket: the display name, and what is left alone *)

(** X9.  For a signed-in user and arguments that pass the checks, the
    ticket is created whenever the store accepts the [add], whatever
    became of the lookup of the display name: a lookup that is rejected,
    that is stale or that finds no profile or no name makes the name fall
    back to the user's email, and never aborts the creation.  The ticket
    carries the trimmed title and description, the type, the user's
    email, the time of the store and no update time. *)
Theorem createTicket_name_falls_back_to_email
    (t d ty : string) (u : Identity) (w : World) :
  session w = Some u ->
  createTicket_accepts t d ty = true ->
  not_rejected 1 w ->
  exists doc,
    exec (createTicket t d ty) w
    = (inr (ticket_id (length (tickets w))),
       snd (exec (createTicket t d ty) w))
    /\ tickets (snd (exec (createTicket t d ty) w))
       = tickets w ++ [(ticket_id (length (tickets w)), doc)]
    /\ title doc = trim t /\ description doc = trim d /\ type doc = ty
    /\ clientEmail doc = email u
    /\ createdAt doc = timestamp (clock w) /\ updatedAt doc = None
    /\ (forall e, fault_at 0 w = Rejects e -> clientName doc = email u)
    /\ (fault_at 0 w = Stale -> clientName doc = email u)
    /\ (fault_at 0 w = NoFault ->
        clientName doc
        = match lookup (uid u) (users w) with
          | Some userData => or_else (field (u_name userData)) (email u)
          | None => email u
          end).
Proof.
  intros Hs Hv N1.
  exists (stored_ticket (clock w) (new_ticket t d ty u (clientName_of u w))).
  rewrite (createTicket_exec _ _ _ _ _ Hs Hv), perform_add_tickets.
  unfold not_rejected, fault_at in *. unfold after_call, clientName_of, read_user.
  cbn [faults set_faults record_call set_log tickets clock].
  destruct (faults w) as [| f0 [| f1 rest]]; cbn [nth tl] in *;
    try (destruct f1 as [| e1 |]; [| exfalso; apply (N1 e1); reflexivity |]);
    cbn [fst snd tickets set_clock set_tickets set_faults record_call set_log
         stored_ticket new_ticket title description type clientEmail createdAt
         updatedAt clientName resolve option_map];
    repeat split; try discriminate;
    try (intros e H; subst; reflexivity);
    try (intro H; subst; reflexivity).
Qed.

(** Alice's profile cannot be read: she is named by her email. *)
Lemma createTicket_name_falls_back_witness :
  exists doc,
    tickets (snd (exec (createTicket "Crash on launch" "App crashes" "bug")
                       (set_faults alice_signed_in [Rejects network_error])))
    = [("ticket0", doc)]
    /\ clientName doc = "alice@x.com".
Proof.
  destruct (createTicket_name_falls_back_to_email
              "Crash on launch" "App crashes" "bug" alice
              (set_faults alice_signed_in [Rejects network_error]))
    as [doc [_ [Ht [_ [_ [_ [_ [_ [_ [Hn _]]]]]]]]]].
  - reflexivity.
  - reflexivity.
  - intros e. discriminate.
  - exists doc. split; [exact Ht | apply (Hn network_error); reflexivity].
Defined.

(** X10.  [createTicket] only ever appends: the tickets there before are
    kept as they are, at most one is added, and none when the call
    fails; accounts, profiles, the session and the navigator are not
    touched. *)
Theorem createTicket_only_appends (t d ty : string) (w : World) :
  let out := exec (createTicket t d ty) w in
  (exists added, tickets (snd out) = tickets w ++ added /\ length added <= 1)
  /\ (forall e, fst out = inl e -> tickets (snd out) = tickets w)
  /\ accounts (snd out) = accounts w
  /\ users (snd out) = users w
  /\ session (snd out) = session w
  /\ nav (snd out) = nav w.
Proof.
  cbv zeta. destruct (session w) as [u |] eqn:Hs.
  2: { rewrite (createTicket_not_logged_in _ _ _ _ Hs). cbn [fst snd].
       repeat split; try (rewrite Hs; reflexivity).
       exists []. rewrite app_nil_r. split; [reflexivity | simpl; lia]. }
  destruct (createTicket_accepts t d ty) eqn:Hv.
  2: { rewrite (createTicket_refused _ _ _ _ _ Hs Hv). cbn [fst snd].
       repeat split; try (rewrite Hs; reflexivity).
       exists []. rewrite app_nil_r. split; [reflexivity | simpl; lia]. }
  rewrite (createTicket_exec _ _ _ _ _ Hs Hv), perform_add_tickets.
  unfold after_call. cbn [faults set_faults record_call set_log tickets clock].
  destruct (tl (faults w)) as [| [| e1 |] rest]; cbn [fst snd tickets accounts
    users session nav set_clock set_tickets set_faults record_call set_log];
    (split; [first [ eexists; split; [reflexivity | simpl; lia]
                   | exists []; rewrite app_nil_r; split; [reflexivity | simpl; lia] ] |]);
    (split; [intros e H; first [discriminate | reflexivity] |]);
    repeat split; rewrite ?Hs; reflexivity.
Qed.

(** Nobody is signed in: the call fails and the tickets are as before. *)
Lemma createTicket_only_appends_witness :
  tickets (snd (exec (createTicket "Crash on launch" "App crashes" "bug") empty))
  = tickets empty.
Proof.
  apply (proj1 (proj2 (createTicket_only_appends
                         "Crash on launch" "App crashes" "bug" empty))
           (new_Error Errors.NotAuthenticated)).
  reflexivity.
Defined.

(* ================================================================== *)
(** ** getTicketById and updateTicketStatus *)

Lemma lookup_put_other {V} (j k : string) (v : V) (m : list (string * V)) :
  j <> k -> lookup j (put k v m) = lookup j m.
Proof.
  intro H. induction m as [| [k' v'] m IH]; simpl.
  - destruct (k =? j) eqn:E; [apply String.eqb_eq in E; congruence | reflexivity].
  - destruct (k' =? k) eqn:E1; simpl.
    + apply String.eqb_eq in E1. subst k'.
      destruct (k =? j) eqn:E2; [apply String.eqb_eq in E2; congruence | reflexivity].
    + destruct (k' =? j); [reflexivity | exact IH].
Qed.

Lemma lookup_app_new {V} (k : string) (v : V) (m : list (string * V)) :
  lookup k m = None -> lookup k (m ++ [(k, v)]) = Some v.
Proof.
  induction m as [| [k' v'] m IH]; simpl.
  - rewrite String.eqb_refl; reflexivity.
  - destruct (k' =? k); [discriminate | exact IH].
Qed.

Lemma In_put {V} (k : string) (v : V) (m : list (string * V)) : In (k, v) (put k v m).
Proof.
  induction m as [| [k' v'] m IH]; simpl.
  - left; reflexivity.
  - destruct (k' =? k); [left; reflexivity | right; exact IH].
Qed.

(** Writing over a ticket a document with the same fixed part changes no
    fixed part of the collection. *)
Lemma put_keeps_fixed_part (k : string) (d v : TicketDoc) (m : list (string * TicketDoc)) :
  lookup k m = Some d ->
  fixed_part (k, v) = fixed_part (k, d) ->
  map fixed_part (put k v m) = map fixed_part m.
Proof.
  intros L F. induction m as [| [k' v'] m IH]; simpl in *; [discriminate |].
  destruct (k' =? k) eqn:E.
  - apply String.eqb_eq in E. subst k'. inversion L; subst. simpl.
    rewrite F. reflexivity.
  - simpl. rewrite (IH L). reflexivity.
Qed.

Lemma perform_getDoc_tickets (i : string) (w : World) :
  perform (getDoc_tickets i) w = (read_ticket i w, after_call (getDoc_tickets i) w).
Proof.
  cbn [perform]. rewrite remote_eq. unfold read_ticket, after_call.
  destruct (faults w) as [| [| e |] rest] eqn:F; simpl; try reflexivity.
  rewrite (set_faults_nil _ _ F). reflexivity.
Qed.

Lemma perform_updateDoc_tickets (i s : string) (t : FieldValue) (w : World) :
  perform (updateDoc_tickets i s t) w =
  match faults w with
  | Rejects e :: _ => (inl e, after_call (updateDoc_tickets i s t) w)
  | _ =>
      match lookup i (tickets w) with
      | None => (inl not_found, after_call (updateDoc_tickets i s t) w)
      | Some d =>
          (inr tt,
           set_clock
             (set_tickets (after_call (updateDoc_tickets i s t) w)
                (put i (updated_ticket (clock w) s t d) (tickets w)))
             (S (clock w)))
      end
  end.
Proof.
  cbn [perform]. rewrite remote_eq. unfold after_call, not_found.
  destruct (faults w) as [| [| e |] rest] eqn:F; cbn [tickets clock record_call set_log
    set_faults tl]; try reflexivity.
  rewrite (set_faults_nil _ _ F). reflexivity.
Qed.

Lemma read_ticket_served (i : string) (w : World) :
  fault_at 0 w = NoFault -> read_ticket i w = inr (lookup i (tickets w)).
Proof.
  unfold fault_at, read_ticket. destruct (faults w) as [| f rest]; simpl;
    intro H; [| rewrite H]; reflexivity.
Qed.

Lemma getTicketById_exec (i : string) (w : World) :
  i <> "" ->
  exec (getTicketById i) w =
  (match read_ticket i w with
   | inl e => inl (new_Error (or_else (message e) "Failed to get ticket"))
   | inr None => inl (new_Error "Ticket not found")
   | inr (Some d) => inr {| id := i; data := d |}
   end, after_call (getDoc_tickets i) w).
Proof.
  intro H. apply truthy_true in H. unfold getTicketById.
  rewrite H. cbn [negb throw_if bind].
  rewrite exec_try_catch, exec_bind, exec_await, perform_getDoc_tickets.
  destruct (read_ticket i w) as [e | [d |]]; reflexivity.
Qed.

Lemma updateTicketStatus_exec (i s : string) (w : World) :
  i <> "" ->
  In s validStatuses ->
  exec (updateTicketStatus i s) w =
  match perform (updateDoc_tickets i s serverTimestamp) w with
  | (inl e, w1) =>
      (inl (new_Error (or_else (message e) "Failed to update ticket status")), w1)
  | (inr _, w1) => (inr tt, w1)
  end.
Proof.
  intros H Hs. apply truthy_true in H. apply includes_In in Hs.
  unfold updateTicketStatus. rewrite H, Hs. cbn [negb throw_if bind].
  rewrite exec_try_catch, exec_await.
  destruct (perform (updateDoc_tickets i s serverTimestamp) w) as [[e | []] w1];
    reflexivity.
Qed.

(** X11.  [getTicketById] throws "Ticket ID is required" without calling
    anything when the id is empty; with an id and a read that is served
    it returns the stored document under that id, or fails with "Ticket
    not found" when there is none; and in no case does it change
    tickets, profiles, accounts or session. *)
Theorem getTicketById_finds_or_reports (i : string) (w : World) :
  (i = "" -> getTicketById i = Throw (new_Error "Ticket ID is required"))
  /\ (i <> "" -> fault_at 0 w = NoFault ->
      (forall d, lookup i (tickets w) = Some d ->
                 fst (exec (getTicketById i) w) = inr {| id := i; data := d |})
      /\ (lookup i (tickets w) = None ->
          fst (exec (getTicketById i) w) = inl (new_Error "Ticket not found")))
  /\ tickets (snd (exec (getTicketById i) w)) = tickets w
  /\ users (snd (exec (getTicketById i) w)) = users w
  /\ accounts (snd (exec (getTicketById i) w)) = accounts w
  /\ session (snd (exec (getTicketById i) w)) = session w.
Proof.
  split; [intros ->; reflexivity |].
  destruct i as [| c s]; [split; [intro H; congruence | repeat split] |].
  assert (H : String c s <> "") by discriminate.
  rewrite (getTicketById_exec _ _ H). split; [| repeat split].
  intros _ Hf. unfold read_ticket, fault_at in *.
  destruct (faults w) as [| f rest]; cbn [nth] in Hf; subst;
    (split; [intros d L | intro L]); cbn [fst]; rewrite L; reflexivity.
Qed.

Lemma getTicketById_finds_witness :
  fst (exec (getTicketById "ticket9") alice_signed_in)
  = inl (new_Error "Ticket not found").
Proof.
  apply (proj1 (proj2 (getTicketById_finds_or_reports "ticket9" alice_signed_in)));
    [discriminate | reflexivity | reflexivity].
Defined.

Lemma ticket_id_nonempty (k : nat) : ticket_id k <> "".
Proof. unfold ticket_id. simpl. discriminate. Qed.

(** X12.  Create, then get: the id [createTicket] returned, once the
    store serves the read, gives back through [getTicketById] the ticket
    just created: open, owned by the user who was signed in, with the
    trimmed title and description and the type given.  (The id the store
    assigned was new.) *)
Theorem createTicket_then_getTicketById
    (t d ty i : string) (w w' : World) :
  exec (createTicket t d ty) w = (inr i, w') ->
  lookup i (tickets w) = None ->
  fault_at 0 w' = NoFault ->
  exists u tk,
    session w = Some u
    /\ fst (exec (getTicketById i) w') = inr tk
    /\ id tk = i
    /\ status (data tk) = "open"
    /\ clientId (data tk) = uid u
    /\ title (data tk) = trim t
    /\ description (data tk) = trim d
    /\ type (data tk) = ty.
Proof.
  intros E Hn Hf.
  assert (Hi : i <> "").
  { destruct (session w) as [u |] eqn:Hs.
    2: { rewrite (createTicket_not_logged_in _ _ _ _ Hs) in E. discriminate. }
    destruct (createTicket_accepts t d ty) eqn:Hv.
    2: { rewrite (createTicket_refused _ _ _ _ _ Hs Hv) in E. discriminate. }
    rewrite (createTicket_exec _ _ _ _ _ Hs Hv), perform_add_tickets in E.
    destruct (faults (after_call (getDoc_users (uid u)) w)) as [| [| e |] rest];
      inversion E; apply ticket_id_nonempty. }
  apply createTicket_success in E as [u [Hs [_ Ht]]].
  exists u. eexists. split; [exact Hs |]. split.
  - rewrite (getTicketById_exec _ _ Hi), (read_ticket_served _ _ Hf), Ht,
      (lookup_app_new _ _ _ Hn). reflexivity.
  - repeat split.
Qed.

Lemma createTicket_then_getTicketById_witness :
  exists u tk,
    session alice_signed_in = Some u
    /\ fst (exec (getTicketById "ticket0")
                 (snd (exec (createTicket "  Crash on launch " "App crashes" "bug")
                            alice_signed_in))) = inr tk
    /\ id tk = "ticket0"
    /\ status (data tk) = "open"
    /\ clientId (data tk) = uid u
    /\ title (data tk) = trim "  Crash on launch "
    /\ description (data tk) = trim "App crashes"
    /\ type (data tk) = "bug".
Proof.
  apply (createTicket_then_getTicketById
           "  Crash on launch " "App crashes" "bug" "ticket0" alice_signed_in).
  - vm_compute. reflexivity.
  - reflexivity.
  - reflexivity.
Defined.

(** X13.  With an id, one of the four statuses and a store that does not
    reject the call, [updateTicketStatus] on a ticket that exists returns
    and leaves that ticket with the new status and the store's time as
    update time, its owner, title, description, type, creation time and
    the owner's name and email unchanged; every other ticket is as it
    was. *)
Theorem updateTicketStatus_sets_status_only
    (i s : string) (d : TicketDoc) (w : World) :
  i <> "" ->
  In s validStatuses ->
  not_rejected 0 w ->
  lookup i (tickets w) = Some d ->
  let out := exec (updateTicketStatus i s) w in
  fst out = inr tt
  /\ lookup i (tickets (snd out))
     = Some {| title := title d; description := description d; type := type d;
               status := s; clientId := clientId d; clientName := clientName d;
               clientEmail := clientEmail d; createdAt := createdAt d;
               updatedAt := Some (timestamp (clock w)) |}
  /\ (forall j, j <> i -> lookup j (tickets (snd out)) = lookup j (tickets w)).
Proof.
  intros Hi Hs N L out. subst out.
  rewrite (updateTicketStatus_exec _ _ _ Hi Hs), perform_updateDoc_tickets, L.
  unfold not_rejected, fault_at in N.
  destruct (faults w) as [| [| e |] rest]; cbn [nth] in N;
    try (exfalso; apply (N e); reflexivity);
    cbn [fst snd tickets set_clock set_tickets];
    (split; [reflexivity |]);
    (split; [apply lookup_put_same | intros j Hj; apply lookup_put_other; exact Hj]).
Qed.

(** X14.  [updateTicketStatus] never adds, removes or reorders a ticket
    and never changes the id, owner, title, description, type or creation
    time of one, whatever its arguments and whatever the service does;
    when it fails, the tickets are exactly as before.  Profiles, accounts
    and the session are not touched. *)
Theorem updateTicketStatus_keeps_fixed_parts (i s : string) (w : World) :
  let out := exec (updateTicketStatus i s) w in
  map fixed_part (tickets (snd out)) = map fixed_part (tickets w)
  /\ (forall e, fst out = inl e -> tickets (snd out) = tickets w)
  /\ users (snd out) = users w
  /\ accounts (snd out) = accounts w
  /\ session (snd out) = session w.
Proof.
  cbv zeta.
  destruct (truthy i) eqn:Ti.
  2: { apply truthy_false in Ti. subst i.
       assert (E : updateTicketStatus "" s = Throw (new_Error Errors.TicketIdRequired)).
       { unfold updateTicketStatus. simpl. reflexivity. }
       rewrite E. repeat split. }
  apply truthy_true in Ti.
  destruct (includes validStatuses s) eqn:Hs.
  2: { assert (E : updateTicketStatus i s = Throw (new_Error Errors.InvalidStatus)).
       { unfold updateTicketStatus. rewrite Hs. destruct i; [congruence | reflexivity]. }
       rewrite E. repeat split. }
  apply includes_In in Hs.
  rewrite (updateTicketStatus_exec _ _ _ Ti Hs), perform_updateDoc_tickets.
  destruct (faults w) as [| [| e |] rest];
    try (destruct (lookup i (tickets w)) as [d |] eqn:L);
    cbn [fst snd tickets users accounts session set_clock set_tickets after_call
         set_faults record_call set_log];
    (split; [first [reflexivity | apply (put_keeps_fixed_part _ d); [exact L | reflexivity]] |]);
    (split; [intros e' H; first [discriminate | reflexivity] |]);
    repeat split.
Qed.

Lemma updateTicketStatus_keeps_fixed_parts_witness :
  tickets (snd (exec (updateTicketStatus "ticket9" "closed") alice_signed_in))
  = tickets alice_signed_in.
Proof.
  apply (proj1 (proj2 (updateTicketStatus_keeps_fixed_parts
                         "ticket9" "closed" alice_signed_in))
           (new_Error "No document to update")).
  reflexivity.
Defined.

Lemma updateTicketStatus_sets_status_only_witness :
  exists d,
    lookup "ticket0" (tickets (snd (exec (updateTicketStatus "ticket0" "resolved")
                                         alice_with_ticket))) = Some d
    /\ status d = "resolved" /\ clientId d = "user0".
Proof.
  destruct (updateTicketStatus_sets_status_only "ticket0" "resolved"
              (stored_ticket 1 (new_ticket "Crash on launch" "App crashes" "bug"
                                  alice "Alice"))
              alice_with_ticket) as [_ [H _]].
  - discriminate.
  - simpl. auto.
  - intros e. discriminate.
  - reflexivity.
  - eexists. split; [exact H | split; reflexivity].
Defined.

(* ================================================================== *)
(** ** From the store to the lists: what the listeners then deliver *)

Lemma In_delivered (q : Query) (i : string) (d : TicketDoc)
    (coll : list (string * TicketDoc)) :
  orderBy q = Some ("createdAt", desc) ->
  In (i, d) coll -> matches q (i, d) = true ->
  In {| id := i; data := d |} (delivered q coll).
Proof.
  intros Ho Hin Hm. destruct (delivered_spec q coll Ho) as [_ Hp].
  assert (H : In (i, d) (map stored (delivered q coll))).
  { eapply Permutation_in; [apply Permutation_sym; exact Hp |].
    apply filter_In. split; assumption. }
  apply in_map_iff in H as [[i' d'] [E H]].
  unfold stored in E; simpl in E. inversion E; subst. exact H.
Qed.

(** X15.  A ticket [createTicket] has created is, in the state it leaves,
    in the list the creator's own listener delivers and in the list the
    listener on all tickets delivers, under the id returned and with
    status open; the own-tickets listener of any other user does not
    deliver it. *)
Theorem created_ticket_is_delivered (t d ty i : string) (w w' : World) :
  exec (createTicket t d ty) w = (inr i, w') ->
  exists u doc,
    session w = Some u
    /\ status doc = "open"
    /\ clientId doc = uid u
    /\ In {| id := i; data := doc |} (delivered (own_query u) (tickets w'))
    /\ In {| id := i; data := doc |} (delivered all_query (tickets w'))
    /\ (forall v, uid v <> uid u ->
          ~ In {| id := i; data := doc |} (delivered (own_query v) (tickets w'))).
Proof.
  intro E. apply createTicket_success in E as [u [Hs [_ Ht]]].
  exists u, (stored_ticket (clock w) (new_ticket t d ty u (clientName_of u w))).
  split; [exact Hs |].
  split; [reflexivity | split; [reflexivity |]].
  assert (Hin : In (i, stored_ticket (clock w)
                         (new_ticket t d ty u (clientName_of u w))) (tickets w')).
  { rewrite Ht. apply in_or_app; right; left; reflexivity. }
  split; [| split].
  - apply In_delivered; [reflexivity | exact Hin |].
    unfold matches, own_query; simpl. apply String.eqb_refl.
  - apply In_delivered; [reflexivity | exact Hin | reflexivity].
  - intros v Hv Hd.
    destruct (delivered_own v (tickets w')) as [Hall _].
    rewrite Forall_forall in Hall. apply Hall in Hd. simpl in Hd.
    apply Hv. symmetry. exact Hd.
Qed.

Lemma created_ticket_is_delivered_witness :
  exists u doc,
    session alice_signed_in = Some u
    /\ status doc = "open"
    /\ clientId doc = uid u
    /\ In {| id := "ticket0"; data := doc |}
          (delivered (own_query u) (tickets alice_with_ticket))
    /\ In {| id := "ticket0"; data := doc |}
          (delivered all_query (tickets alice_with_ticket))
    /\ (forall v, uid v <> uid u ->
          ~ In {| id := "ticket0"; data := doc |}
               (delivered (own_query v) (tickets alice_with_ticket))).
Proof.
  apply (created_ticket_is_delivered "Crash on launch" "App crashes" "bug" "ticket0"
           alice_signed_in alice_with_ticket).
  vm_compute. reflexivity.
Defined.

(** X16.  When [updateTicketStatus] has set the status of a ticket, the
    next list the owner's listener delivers holds that ticket with the
    new status; so does the list of the listener on all tickets. *)
Theorem status_change_is_delivered_to_owner
    (i s : string) (d : TicketDoc) (u : Identity) (w : World) :
  i <> "" ->
  In s validStatuses ->
  not_rejected 0 w ->
  lookup i (tickets w) = Some d ->
  clientId d = uid u ->
  exists d',
    status d' = s
    /\ clientId d' = uid u
    /\ In {| id := i; data := d' |}
          (delivered (own_query u) (tickets (snd (exec (updateTicketStatus i s) w))))
    /\ In {| id := i; data := d' |}
          (delivered all_query (tickets (snd (exec (updateTicketStatus i s) w)))).
Proof.
  intros Hi Hs N L Hc.
  exists (updated_ticket (clock w) s serverTimestamp d).
  split; [reflexivity | split; [exact Hc |]].
  assert (Hin : In (i, updated_ticket (clock w) s serverTimestamp d)
                   (tickets (snd (exec (updateTicketStatus i s) w)))).
  { rewrite (updateTicketStatus_exec _ _ _ Hi Hs), perform_updateDoc_tickets, L.
    unfold not_rejected, fault_at in N.
    destruct (faults w) as [| [| e |] rest]; cbn [nth] in N;
      try (exfalso; apply (N e); reflexivity);
      cbn [snd tickets set_clock set_tickets]; apply In_put. }
  split; apply In_delivered; try exact Hin; try reflexivity.
  unfold matches, own_query; simpl. rewrite Hc. apply String.eqb_refl.
Qed.

Lemma status_change_is_delivered_witness :
  exists d',
    status d' = "resolved"
    /\ clientId d' = uid alice
    /\ In {| id := "ticket0"; data := d' |}
          (delivered (own_query alice)
             (tickets (snd (exec (updateTicketStatus "ticket0" "resolved")
                                 alice_with_ticket))))
    /\ In {| id := "ticket0"; data := d' |}
          (delivered all_query
             (tickets (snd (exec (updateTicketStatus "ticket0" "resolved")
                                 alice_with_ticket)))).
Proof.
  apply (status_change_is_delivered_to_owner "ticket0" "resolved"
           (stored_ticket 1 (new_ticket "Crash on launch" "App crashes" "bug"
                               alice "Alice"))
           alice alice_with_ticket).
  - discriminate.
  - simpl. auto.
  - intros e. discriminate.
  - reflexivity.
  - reflexivity.
Defined.

(* ================================================================== *)
(** ** getMyTickets without a session *)

(** X17.  With nobody signed in, [getMyTickets] never returns an
    unsubscribe handle: it throws "You must be logged in to view
    tickets", after it has called [onError], when there is one, with that
    very error; it registers no listener and calls nothing itself (the
    state is left as [onError] leaves it, and untouched without
    [onError]). *)
Theorem getMyTickets_requires_session
    (onError : option (Error -> prog unit)) (w : World) :
  session w = None ->
  let error := new_Error "You must be logged in to view tickets" in
  match onError with
  | None => exec (getMyTickets None) w = (inl error, w)
  | Some handler =>
      exec (getMyTickets (Some handler)) w
      = match exec (handler error) w with
        | (inr _, w1) => (inl error, w1)
        | (inl e, w1) => (inl e, w1)
        end
  end
  /\ forall h w', exec (getMyTickets onError) w <> (inr h, w').
Proof.
  intros Hs error.
  assert (E : exec (getMyTickets onError) w
              = match exec match onError with
                           | Some handler => handler error
                           | None => Ret tt
                           end w with
                | (inr _, w1) => (inl error, w1)
                | (inl e, w1) => (inl e, w1)
                end).
  { unfold getMyTickets. rewrite exec_bind, exec_await.
    change (perform authInstance_currentUser w) with (@inr Error _ (session w), w).
    rewrite Hs. cbv beta iota. rewrite exec_bind.
    destruct (exec _ w) as [[e | []] w1]; reflexivity. }
  split.
  - destruct onError as [handler |]; exact E.
  - intros h w' H. rewrite E in H.
    destruct (exec match onError with
                   | Some handler => handler error
                   | None => Ret tt
                   end w) as [[e | []] w1]; discriminate.
Qed.

Lemma getMyTickets_requires_session_witness :
  exec (getMyTickets None) empty
  = (inl (new_Error "You must be logged in to view tickets"), empty).
Proof.
  apply (proj1 (getMyTickets_requires_session None empty eq_refl)).
Defined.

(* ================================================================== *)
(** ** The auth listener and the navigator: further properties *)

Lemma getUserRole_keeps_store (userId : string) (retries : nat) (w : World) :
  tickets (snd (exec (getUserRole userId retries) w)) = tickets w
  /\ accounts (snd (exec (getUserRole userId retries) w)) = accounts w.
Proof.
  destruct userId as [| c s].
  { rewrite getUserRole_no_id. split; reflexivity. }
  assert (H : String c s <> "") by discriminate.
  revert w. induction retries as [| n IH]; intro w;
    rewrite (getUserRole_exec _ _ _ H); cbv zeta;
    destruct (read_user (String c s) w) as [e | [userData |]];
    try solve [try destruct (truthy (field (u_role userData))); split; reflexivity].
  destruct (IH (after_delay 500 (after_call (getDoc_users (String c s)) w)))
    as [E1 E2].
  rewrite E1, E2. split; reflexivity.
Qed.

(** X18.  Every run of the auth listener ends with [loading] off,
    whatever the session change and whatever fails on the way (the
    resolution, the sign-out); it never changes a ticket, a profile or an
    account.  For a session that ended it clears user, role and error
    without calling anything; after a resolved role it holds that user
    and role and no error. *)
Theorem authListener_always_stops_loading (authUser : option Identity) (w : World) :
  let out := exec (authListener authUser) w in
  loading (nav (snd out)) = false
  /\ tickets (snd out) = tickets w
  /\ users (snd out) = users w
  /\ accounts (snd out) = accounts w
  /\ (authUser = None -> out = (inr tt, set_nav w (mkNav None None None false)))
  /\ (forall au role w1,
        authUser = Some au ->
        exec (getUserRole (uid au) default_retries) w = (inr role, w1) ->
        out = (inr tt, set_nav w1 (mkNav (Some au) (Some role) None false))).
Proof.
  cbv zeta. destruct authUser as [au |].
  2: { rewrite authListener_exec_none. repeat split. intros au role w1 H; discriminate. }
  rewrite authListener_exec.
  pose proof (getUserRole_frame (uid au) default_retries w) as [_ [Hu _]].
  pose proof (getUserRole_keeps_store (uid au) default_retries w) as [Ht Ha].
  destruct (exec (getUserRole (uid au) default_retries) w) as [[e | role] w1] eqn:E;
    cbn [snd] in Hu, Ht, Ha.
  - cbv zeta. rewrite signOut_exec. cbn [faults set_nav].
    destruct (faults w1) as [| [| e' |] rest];
      cbn [snd nav loading tickets users accounts set_nav set_session after_call
           set_faults record_call set_log];
      repeat split; auto; try congruence;
      intros au0 role0 w0 H1 H2; inversion H1; subst au0; rewrite E in H2;
      discriminate.
  - cbn [snd nav loading tickets users accounts set_nav].
    repeat split; auto; congruence.
Qed.

Lemma authListener_always_stops_loading_witness :
  exec (authListener None) alice_routed
  = (inr tt, set_nav alice_routed (mkNav None None None false)).
Proof.
  apply (proj1 (proj2 (proj2 (proj2 (proj2
           (authListener_always_stops_loading None alice_routed)))))).
  reflexivity.
Defined.

(** X19.  What the navigator shows is decided by [loading], the user
    and the role alone: nothing while loading; the Auth screens exactly
    when there is no user; the client screens exactly for a user whose
    role is client; the admin screens and the ticket detail exactly for a
    user whose role is admin. *)
Theorem AppNavigator_gates_by_role (s : NavState) :
  (loading s = true -> AppNavigator s = None)
  /\ (forall screens, AppNavigator s = Some screens ->
        loading s = false
        /\ (In Auth screens <-> user s = None)
        /\ (In ClientApp screens <-> user s <> None /\ userRole s = Some "client")
        /\ (In DeveloperApp screens <-> user s <> None /\ userRole s = Some "admin")
        /\ (In TicketDetail screens <-> user s <> None /\ userRole s = Some "admin")).
Proof.
  unfold AppNavigator. split; [intros ->; reflexivity |].
  intros screens. destruct (loading s); [discriminate |].
  intro H. inversion H as [Hs]. clear H. split; [reflexivity |].
  destruct (user s) as [au |]; [| simpl; intuition congruence].
  destruct (userRole s) as [r |]; [| simpl; intuition congruence].
  destruct (r =? "client") eqn:C.
  { apply String.eqb_eq in C. subst r. simpl. intuition congruence. }
  destruct (r =? "admin") eqn:A.
  { apply String.eqb_eq in A. subst r. simpl. intuition congruence. }
  apply String.eqb_neq in C, A. simpl. intuition congruence.
Qed.

Example AppNavigator_gates_admin :
  AppNavigator (mkNav (Some alice) (Some "admin") None false)
  = Some [DeveloperApp; TicketDetail].
Proof. reflexivity. Qed.

Lemma AppNavigator_gates_by_role_witness :
  In TicketDetail [DeveloperApp; TicketDetail]
  <-> user (mkNav (Some alice) (Some "admin") None false) <> None
      /\ userRole (mkNav (Some alice) (Some "admin") None false) = Some "admin".
Proof.
  destruct (proj2 (AppNavigator_gates_by_role
                     (mkNav (Some alice) (Some "admin") None false))
              [DeveloperApp; TicketDetail] eq_refl)
    as [_ [_ [_ [_ H]]]].
  exact H.
Defined.

(** X20.  From registration to the screens: once [signUp] has returned
    an identity, a run of the listener for it whose first read of the
    profile is served routes it by the role given at registration: the
    client screens for client, the admin screens for admin. *)
Theorem registered_user_is_routed_by_role
    (e p n r : string) (w w' : World) (u : Identity) :
  exec (signUp e p n r) w = (inr u, w') ->
  fault_at 0 w' = NoFault ->
  let s := nav (snd (exec (authListener (Some u)) w')) in
  user s = Some u
  /\ userRole s = Some r
  /\ (r = "client" -> AppNavigator s = Some [ClientApp])
  /\ (r = "admin" -> AppNavigator s = Some [DeveloperApp; TicketDetail])
  /\ (r = "client" \/ r = "admin").
Proof.
  intros E Hf. cbv zeta.
  pose proof (signUp_returns_valid _ _ _ _ _ _ _ E) as Hv.
  assert (Hr : r <> "") by (unfold signUp_refuses in Hv; tauto).
  destruct (signUp_returns_facts _ _ _ _ _ _ _ E) as [Hid [Hin [_ [_ [Hl _]]]]].
  assert (Hu : uid u <> "") by (rewrite Hid; apply user_id_nonempty).
  assert (Hs : forall i, i < 0 -> fault_at i w' = Stale) by (intros i Hi; lia).
  destruct (getUserRole_visible_after (uid u) 0 default_retries w' _ Hu
              (Nat.le_0_l _) Hs Hf Hl) as [R _].
  cbn [u_role field] in R. apply truthy_true in Hr. rewrite Hr in R.
  rewrite authListener_exec.
  destruct (exec (getUserRole (uid u) default_retries) w') as [[e0 | role] w1];
    cbn [fst] in R; [discriminate |].
  inversion R; subst role. cbn [snd nav set_nav user userRole].
  split; [reflexivity | split; [reflexivity |]].
  split; [intros ->; reflexivity |].
  split; [intros ->; reflexivity |].
  destruct Hin as [<- | [<- | []]]; auto.
Qed.

Lemma registered_user_is_routed_witness :
  AppNavigator (nav (snd (exec (authListener (Some alice)) alice_signed_in)))
  = Some [ClientApp].
Proof.
  assert (E : exec (signUp "alice@x.com" "secret1" "Alice" "client") empty
              = (inr alice, alice_signed_in)) by (vm_compute; reflexivity).
  destruct (registered_user_is_routed_by_role _ _ _ _ _ _ _ E eq_refl)
    as [_ [_ [H _]]].
  apply H. reflexivity.
Defined.

(* ================================================================== *)
(** ** The handlers of the screens *)

Lemma createTicket_keeps_screens (t d ty : string) (w : World) :
  form (snd (exec (createTicket t d ty) w)) = form w
  /\ alerts (snd (exec (createTicket t d ty) w)) = alerts w.
Proof.
  destruct (session w) as [u |] eqn:Hs.
  2: { rewrite (createTicket_not_logged_in _ _ _ _ Hs). split; reflexivity. }
  destruct (createTicket_accepts t d ty) eqn:Hv.
  2: { rewrite (createTicket_refused _ _ _ _ _ Hs Hv). split; reflexivity. }
  rewrite (createTicket_exec _ _ _ _ _ Hs Hv), perform_add_tickets.
  unfold after_call. cbn [faults set_faults record_call set_log].
  destruct (tl (faults w)) as [| [| e1 |] rest]; split; reflexivity.
Qed.

(** X21.  Past its check of the trimmed fields, [handleSubmit] never
    throws and always ends with the form's [loading] off.  When the
    ticket is created the form is cleared (empty title and description,
    type bug) and one alert says so; when the creation fails the title,
    description and type of the form are kept and one alert shows the
    message of the error. *)
Theorem handleSubmit_clears_form_or_keeps_it (f : FormState) (w : World) :
  trim (f_title f) <> "" ->
  trim (f_description f) <> "" ->
  let created :=
    exec (createTicket (trim (f_title f)) (trim (f_description f)) (f_type f))
         (set_form w (mkForm (f_title (form w)) (f_description (form w))
                        (f_type (form w)) true)) in
  let out := exec (handleSubmit f) w in
  fst out = inr tt
  /\ f_loading (form (snd out)) = false
  /\ (forall i, fst created = inr i ->
        form (snd out) = mkForm "" "" "bug" false
        /\ alerts (snd out) = alerts w ++ [("Success", "Ticket created successfully!")])
  /\ (forall e, fst created = inl e ->
        f_title (form (snd out)) = f_title (form w)
        /\ f_description (form (snd out)) = f_description (form w)
        /\ f_type (form (snd out)) = f_type (form w)
        /\ alerts (snd out) = alerts w ++ [("Error", message e)]).
Proof.
  intros H1 H2. cbv zeta. apply truthy_true in H1, H2.
  unfold handleSubmit. rewrite H1, H2. cbn [negb orb].
  rewrite exec_bind, exec_await. cbn [perform].
  rewrite exec_try_finally, exec_try_catch, exec_bind.
  match goal with
  | |- context [exec (createTicket ?a ?b ?c) ?w0] =>
      pose proof (createTicket_keeps_screens a b c w0) as [Hf Ha];
      destruct (exec (createTicket a b c) w0) as [[e | i] w1]
  end; cbn [fst snd] in *; cbn [form alerts set_form] in Hf, Ha;
    cbn [exec bind await perform fst snd form alerts set_form set_alerts
         f_title f_description f_type f_loading];
    rewrite ?Hf, ?Ha;
    (split; [reflexivity |]); (split; [reflexivity |]);
    split; intros x Hx; inversion Hx; subst; repeat split.
Qed.

Lemma handleSubmit_clears_form_witness :
  form (snd (exec (handleSubmit (mkForm " Crash on launch" "App crashes" "bug" false))
                  alice_signed_in))
  = mkForm "" "" "bug" false.
Proof.
  destruct (handleSubmit_clears_form_or_keeps_it
              (mkForm " Crash on launch" "App crashes" "bug" false) alice_signed_in)
    as [_ [_ [H _]]].
  - discriminate.
  - discriminate.
  - destruct (H "ticket0") as [Hf _]; [vm_compute; reflexivity | exact Hf].
Defined.

Lemma signUp_refused_exec (e p n r : string) (w : World) :
  signUp_refuses e p n r ->
  exists m, In m Errors.ValidationError
            /\ exec (signUp e p n r) w = (inl (new_Error m), w).
Proof.
  intro H. apply signUp_refuses_cases in H. unfold signUp.
  destruct (negb (truthy e) || negb (truthy p) || negb (truthy n)
            || negb (truthy r)).
  { exists Errors.AllFieldsRequired. simpl. auto. }
  destruct (Nat.ltb (String.length p) 6).
  { exists Errors.PasswordTooShort. simpl. auto. }
  destruct (negb (includes ["client"; "admin"] r)).
  { exists Errors.RoleNotAllowed. simpl. auto. }
  destruct H as [H | [H | H]]; discriminate.
Qed.

(** X22.  [handleSignup] never throws: when [signUp] returns nothing is
    shown and the state is the one [signUp] leaves; when [signUp] fails,
    one alert shows the message of its error, which is not empty.  For
    an input [signUp] refuses, nothing at all is called: the only change
    is the alert, with one of the three validation messages. *)
Theorem handleSignup_shows_the_error (e p n r : string) (w : World) :
  let registered := exec (signUp e p n r) w in
  let out := exec (handleSignup e p n r) w in
  fst out = inr tt
  /\ (forall u, fst registered = inr u -> snd out = snd registered)
  /\ (forall err, fst registered = inl err ->
        snd out = alerted (snd registered) "Error" (message err)
        /\ message err <> "")
  /\ (signUp_refuses e p n r ->
      exists m, In m Errors.ValidationError /\ snd out = alerted w "Error" m).
Proof.
  cbv zeta. unfold handleSignup. rewrite exec_try_catch, exec_bind.
  split; [| split; [| split]].
  - destruct (exec (signUp e p n r) w) as [[err | u] w1]; reflexivity.
  - intros u H. destruct (exec (signUp e p n r) w) as [[err | u0] w1];
      [discriminate | reflexivity].
  - intros err H.
    destruct (exec (signUp e p n r) w) as [[err0 | u0] w1] eqn:E; [| discriminate].
    cbn [fst] in H. inversion H; subst err0. split; [reflexivity |].
    unfold signUp in E. apply rethrown_fresh in E; [exact (proj2 E) | discriminate].
  - intro H. destruct (signUp_refused_exec e p n r w H) as [m [Hm E]].
    exists m. split; [exact Hm |]. rewrite E. reflexivity.
Qed.

Lemma handleSignup_shows_the_error_witness :
  exists m, In m Errors.ValidationError
            /\ snd (exec (handleSignup "a@x.com" "12345" "Alice" "client") empty)
               = alerted empty "Error" m.
Proof.
  apply (proj2 (proj2 (proj2 (handleSignup_shows_the_error
                                "a@x.com" "12345" "Alice" "client" empty)))).
  unfold signUp_refuses. do 4 right. left. simpl. lia.
Defined.

(** X23.  [handleLogout] never throws: when the sign-out is accepted the
    session is over and nothing is shown; when it is rejected the session
    stays and one alert asks to try again, whatever the error was. *)
Theorem handleLogout_never_throws (w : World) :
  fst (exec handleLogout w) = inr tt
  /\ (not_rejected 0 w ->
      session (snd (exec handleLogout w)) = None
      /\ alerts (snd (exec handleLogout w)) = alerts w)
  /\ (forall e, fault_at 0 w = Rejects e ->
      session (snd (exec handleLogout w)) = session w
      /\ alerts (snd (exec handleLogout w))
         = alerts w ++ [("Error", "Failed to logout. Please try again.")]).
Proof.
  unfold handleLogout. rewrite exec_try_catch, signOut_exec.
  unfold not_rejected, fault_at.
  destruct (faults w) as [| [| e0 |] rest]; cbn [nth];
    (split; [reflexivity |]);
    (split; [intro H; try (exfalso; apply (H e0); reflexivity); split; reflexivity |]);
    intros e H; try discriminate; split; reflexivity.
Qed.

Lemma handleLogout_never_throws_witness :
  session (snd (exec handleLogout alice_signed_in)) = None
  /\ alerts (snd (exec handleLogout alice_signed_in)) = alerts alice_signed_in.
Proof.
  apply (proj1 (proj2 (handleLogout_never_throws alice_signed_in))).
  intros e. discriminate.
Defined.

Lemma In_lookup {V} (k : string) (v : V) (m : list (string * V)) :
  In (k, v) m -> exists v', lookup k m = Some v'.
Proof.
  induction m as [| [k' v'] m IH]; simpl; [intros [] |].
  intros [H | H].
  - inversion H; subst. rewrite String.eqb_refl. eexists; reflexivity.
  - destruct (k' =? k); [eexists; reflexivity | exact (IH H)].
Qed.

(** A ticket a listener delivered is in the collection. *)
Lemma delivered_in_collection (q : Query) (tk : Ticket)
    (coll : list (string * TicketDoc)) :
  orderBy q = Some ("createdAt", desc) ->
  In tk (delivered q coll) -> In (id tk, data tk) coll.
Proof.
  intros Ho H. destruct (delivered_spec q coll Ho) as [_ Hp].
  apply (in_map stored) in H. apply (Permutation_in _ Hp) in H.
  apply filter_In in H as [H _]. exact H.
Qed.

(** X24.  [handleStatusUpdate] never throws for a [goBack] that does not:
    when the update fails one alert shows the message of the error and
    the screen stays ([goBack] is not run); when it succeeds an alert
    says so and [goBack] is run after it.  And each of the four status
    buttons, pressed for a ticket the list of all tickets delivered,
    does update it when the store accepts the call: none of them can
    fail on the check of the status. *)
Theorem handleStatusUpdate_alerts_and_goes_back
    (goBack : prog unit) (ticket : Ticket) (s : string) (w : World) :
  let updated := exec (updateTicketStatus (id ticket) s) w in
  (forall e, fst updated = inl e ->
     exec (handleStatusUpdate goBack ticket s) w
     = (inr tt, alerted (snd updated) "Error" (message e)))
  /\ (fst updated = inr tt ->
      exec (handleStatusUpdate goBack ticket s) w
      = match exec goBack (alerted (snd updated) "Success" "Ticket status updated!") with
        | (inr _, w2) => (inr tt, w2)
        | (inl e, w2) => (inr tt, alerted w2 "Error" (message e))
        end)
  /\ (In s statuses ->
      In ticket (delivered all_query (tickets w)) ->
      id ticket <> "" ->
      not_rejected 0 w ->
      fst updated = inr tt
      /\ exists d, lookup (id ticket) (tickets (snd updated)) = Some d /\ status d = s).
Proof.
  cbv zeta. split; [| split].
  - intros e H. unfold handleStatusUpdate. rewrite exec_try_catch, exec_bind.
    destruct (exec (updateTicketStatus (id ticket) s) w) as [[e0 | []] w1];
      [| discriminate].
    cbn [fst] in H. inversion H; subst. reflexivity.
  - intro H. unfold handleStatusUpdate. rewrite exec_try_catch, exec_bind.
    destruct (exec (updateTicketStatus (id ticket) s) w) as [[e0 | []] w1];
      [discriminate |].
    rewrite exec_bind, exec_await. cbn [perform snd]. unfold alerted.
    destruct (exec goBack _) as [[e | []] w2]; reflexivity.
  - intros Hs Hin Hi N.
    apply delivered_in_collection in Hin; [| reflexivity].
    apply In_lookup in Hin as [d L].
    rewrite (updateTicketStatus_exec _ _ _ Hi Hs), perform_updateDoc_tickets, L.
    unfold not_rejected, fault_at in N.
    destruct (faults w) as [| [| e |] rest]; cbn [nth] in N;
      try (exfalso; apply (N e); reflexivity);
      cbn [fst snd tickets set_clock set_tickets];
      (split; [reflexivity |]);
      eexists; (split; [apply lookup_put_same | reflexivity]).
Qed.

Lemma handleStatusUpdate_witness :
  exists d,
    lookup "ticket0"
      (tickets (snd (exec (updateTicketStatus "ticket0" "in-progress")
                          alice_with_ticket))) = Some d
    /\ status d = "in-progress".
Proof.
  destruct (handleStatusUpdate_alerts_and_goes_back (Ret tt)
              {| id := "ticket0";
                 data := stored_ticket 1 (new_ticket "Crash on launch" "App crashes"
                                            "bug" alice "Alice") |}
              "in-progress" alice_with_ticket) as [_ [_ H]].
  destruct H as [_ H].
  - simpl. auto.
  - vm_compute. left; reflexivity.
  - discriminate.
  - intros e. discriminate.
  - exact H.
Defined.

(* ================================================================== *)
(** ** getUserRole and createTicket: two more checks *)

(** X25.  Whatever the number of retries given, [getUserRole] with a
    user id ends after k + 1 reads of the profile and k waits of 500 ms
    for some k that is at most that number, and makes no other call; with
    no retry it reads once. *)
Theorem getUserRole_budget (userId : string) (retries : nat) (w : World) :
  userId <> "" ->
  exists k,
    k <= retries
    /\ log (snd (exec (getUserRole userId retries) w)) = log w ++ retry_trace userId k
    /\ count is_read (retry_trace userId k) = S k
    /\ count (is_wait 500) (retry_trace userId k) = k
    /\ length (retry_trace userId k) = S k + k.
Proof.
  intro H. destruct (getUserRole_bounded userId retries w H) as [k [Hk E]].
  exists k. split; [exact Hk | split; [exact E | apply retry_trace_counts]].
Qed.

Lemma getUserRole_budget_witness :
  exists k,
    k <= 0
    /\ log (snd (exec (getUserRole "user9" 0) alice_signed_in))
       = log alice_signed_in ++ retry_trace "user9" k
    /\ count is_read (retry_trace "user9" k) = S k
    /\ count (is_wait 500) (retry_trace "user9" k) = k
    /\ length (retry_trace "user9" k) = S k + k.
Proof. apply (getUserRole_budget "user9" 0 alice_signed_in). discriminate. Defined.

(** X26.  For a signed-in user, [createTicket] with a title, a
    description and a type that are not empty but a type other than bug
    or feature fails with the error about the type, before it calls
    anything: the state of the service is unchanged. *)
Theorem createTicket_rejects_unknown_type
    (t d ty : string) (u : Identity) (w : World) :
  session w = Some u ->
  t <> "" -> d <> "" -> ty <> "" ->
  ~ In ty ["bug"; "feature"] ->
  exec (createTicket t d ty) w = (inl (new_Error Errors.TypeNotAllowed), w).
Proof.
  intros Hs Ht Hd Hty Hn.
  apply truthy_true in Ht, Hd, Hty. apply includes_not_In in Hn.
  assert (Hv : createTicket_accepts t d ty = false).
  { unfold createTicket_accepts. rewrite Hn. apply andb_false_r. }
  rewrite (createTicket_refused _ _ _ _ _ Hs Hv), Ht, Hd, Hty. reflexivity.
Qed.

Lemma createTicket_rejects_unknown_type_witness :
  exec (createTicket "Crash on launch" "App crashes" "question") alice_signed_in
  = (inl (new_Error Errors.TypeNotAllowed), alice_signed_in).
Proof.
  apply (createTicket_rejects_unknown_type _ _ _ alice);
    try reflexivity; try discriminate.
  simpl. intros [H | [H | []]]; discriminate.
Defined.

(* ================================================================== *)
(** ** The login screen and the list screens *)

Lemma signIn_fresh (e p : string) (w w' : World) (err : Error) :
  exec (signIn e p) w = (inl err, w') -> fresh_error err.
Proof.
  rewrite signIn_exec.
  destruct (negb (truthy e) || negb (truthy p)).
  { intro E; inversion E; subst. split; [reflexivity | simpl; discriminate]. }
  destruct (perform (signInWithEmailAndPassword e p) w) as [[serr | u] w1];
    [| discriminate].
  destruct (@signIn_catch_fresh Identity serr) as [m [Hm Hne]].
  rewrite Hm. intro E; inversion E; subst. split; [reflexivity | exact Hne].
Qed.

(** X27.  [handleLogin] never throws: when [signIn] returns nothing is
    shown and the state is the one [signIn] leaves; when it fails one
    alert shows the message of its error, which is not empty.  With an
    empty email or password nothing is called: the only change is the
    alert "Email and password are required". *)
Theorem handleLogin_shows_the_error (e p : string) (w : World) :
  let signed := exec (signIn e p) w in
  let out := exec (handleLogin e p) w in
  fst out = inr tt
  /\ (forall u, fst signed = inr u -> snd out = snd signed)
  /\ (forall err, fst signed = inl err ->
        snd out = alerted (snd signed) "Error" (message err)
        /\ message err <> "")
  /\ (e = "" \/ p = "" ->
      snd out = alerted w "Error" "Email and password are required").
Proof.
  cbv zeta. unfold handleLogin. rewrite exec_try_catch, exec_bind.
  split; [| split; [| split]].
  - destruct (exec (signIn e p) w) as [[err | u] w1]; reflexivity.
  - intros u H. destruct (exec (signIn e p) w) as [[err | u0] w1];
      [discriminate | reflexivity].
  - intros err H.
    destruct (exec (signIn e p) w) as [[err0 | u0] w1] eqn:E; [| discriminate].
    cbn [fst] in H. inversion H; subst err0. split; [reflexivity |].
    exact (proj2 (signIn_fresh _ _ _ _ _ E)).
  - intro H.
    assert (E : signIn e p = Throw (new_Error "Email and password are required")).
    { destruct H as [-> | ->]; [reflexivity | destruct e; reflexivity]. }
    rewrite E. reflexivity.
Qed.

Lemma handleLogin_shows_the_error_witness :
  snd (exec (handleLogin "" "secret1") alice_signed_in)
  = alerted alice_signed_in "Error" "Email and password are required".
Proof.
  apply (proj2 (proj2 (proj2 (handleLogin_shows_the_error "" "secret1" alice_signed_in)))).
  left; reflexivity.
Defined.

Lemma act_keeps_tickets (a : ListAction) (s : ListState) :
  l_tickets (act a s) = l_tickets s.
Proof. destruct a; reflexivity. Qed.

Lemma acts_keep_tickets (l : list ListAction) (s : ListState) :
  l_tickets (fold_right act s l) = l_tickets s.
Proof.
  induction l as [| a l IH]; [reflexivity |].
  simpl. rewrite act_keeps_tickets. exact IH.
Qed.

(** X28.  On a list screen, the tickets shown are those of the last
    delivery of its listener, whatever refreshes, retries and
    subscription errors came since; so the number in the header is the
    number of tickets of the signed-in user in the collection that was
    delivered (for the client), or of all its tickets (for the admin).
    A delivery also turns off [loading] and [refreshing] and clears the
    error. *)
Theorem list_screen_shows_last_delivery
    (u : Identity) (coll : list (string * TicketDoc))
    (since : list ListAction) (s : ListState) :
  let client := fold_right act (onData (delivered (own_query u) coll) s) since in
  let admin := fold_right act (onData (delivered all_query coll) s) since in
  l_tickets client = delivered (own_query u) coll
  /\ header_total client
     = length (filter (fun d => clientId (snd d) =? uid u)%string coll)
  /\ l_tickets admin = delivered all_query coll
  /\ header_total admin = length coll
  /\ (since = [] ->
      l_loading admin = false /\ l_refreshing admin = false /\ l_error admin = None).
Proof.
  cbv zeta. unfold header_total. rewrite !acts_keep_tickets. cbn [onData l_tickets].
  destruct (delivered_own u coll) as [_ [_ Hp]].
  destruct (delivered_all coll) as [_ Ha].
  repeat split.
  - rewrite <- (length_map stored). apply (Permutation_length Hp).
  - rewrite <- (length_map stored). apply (Permutation_length Ha).
  - subst; reflexivity.
  - subst; reflexivity.
  - subst; reflexivity.
Qed.

Lemma list_screen_shows_last_delivery_witness :
  l_loading (fold_right act (onData (delivered all_query three_tickets) initialList) [])
  = false.
Proof.
  destruct (list_screen_shows_last_delivery alice three_tickets [] initialList)
    as [_ [_ [_ [_ H]]]].
  destruct (H eq_refl) as [Hl _]. exact Hl.
Defined.

Example list_screen_three_tickets :
  header_total (fold_right act (onData (delivered (own_query alice) three_tickets)
                                  initialList) [Refresh; Retry]) = 2
  /\ header_total (onData (delivered all_query three_tickets) initialList) = 3.
Proof. split; reflexivity. Qed.
